(** * ai-chat-orchestrator: conversation store, transport and turn controls

    A shallow embedding of the client's realtime synchronisation core:

    - [conversationSlice] (store/slices/conversationSlice.ts): the Redux
      reducers over [ConversationState];
    - [WebSocketService] (services/websocket.ts): send, the close / open
      handlers and the reconnect back-off;
    - [ConversationControls] (components/conversation/ConversationControls.tsx):
      the pause / stop / auto-mode handlers, with the values each handler
      closes over at render time made explicit;
    - [personaSlice] and [personaMiddleware]
      (store/slices/personaSlice.ts, store/middleware/personaMiddleware.ts):
      the persona reducers and the registration each add or update triggers.

    Conventions.  A JS [number] holding a millisecond clock reading or a count
    is a [Z]; the reconnect delay, which is fractional, is a [Q].  A JS string
    is the [string] of the bytes of its UTF-8 encoding; its [.length], which
    counts UTF-16 code units, is [js_length].  An optional property is an
    [option]; a JS object used as a dictionary is a [gmap]; [findIndex]
    returns [None] where JS returns -1.  The results of [uuidv4()] and
    [Date.now()] are passed to the reducers as arguments. *)

From stdpp Require Import gmap strings list fin_maps.
From Stdlib Require Import ZArith QArith Qminmax Qpower Lqa.

Local Close Scope Q_scope.
Local Open Scope Z_scope.
Local Open Scope nat_scope.
Local Open Scope string_scope.
Local Open Scope list_scope.

(** ** types/index.ts *)

Inductive SenderType := user | agent | system.

Inductive Status := idle | generating | paused | stopped.

#[global] Instance SenderType_eq_dec : EqDecision SenderType.
Proof. solve_decision. Defined.

#[global] Instance Status_eq_dec : EqDecision Status.
Proof. solve_decision. Defined.

Module Metadata.
Record t := mk {
  thinking : option string;
  modelCallDuration : option Z;
  modelTokensUsed : option Z;
  error : option string;
  isGenerating : option bool;
}.
End Metadata.

Module Message.
Record t := mk {
  id : string;
  conversationId : string;
  senderId : string;
  senderType : SenderType;
  content : string;
  timestamp : Z;
  replyToId : option string;
  metadata : option Metadata.t;
}.
End Message.

Module Conversation.
#[warnings="-register-all"]
Inductive t := mk {
  id : string;
  title : string;
  created : Z;
  updated : Z;
  participants : list string;
  messages : list Message.t;
  branches : option (gmap string t);
  parentId : option string;
  isActive : bool;
}.

(** In-place assignments to a conversation draft. *)
Definition set_messages (ms : list Message.t) (c : t) : t :=
  mk (id c) (title c) (created c) (updated c) (participants c) ms
     (branches c) (parentId c) (isActive c).

Definition set_updated (now : Z) (c : t) : t :=
  mk (id c) (title c) (created c) now (participants c) (messages c)
     (branches c) (parentId c) (isActive c).

Definition set_branches (b : option (gmap string t)) (c : t) : t :=
  mk (id c) (title c) (created c) (updated c) (participants c) (messages c)
     b (parentId c) (isActive c).
End Conversation.

(** [parameters] and [memorySettings] are nested records that the core only
    forwards; they are not inspected and are left out. *)
Module Persona.
Record t := mk {
  id : string;
  name : string;
  avatar : string;
  systemPrompt : string;
  modelId : string;
  conversationStyle : string;
  created : Z;
  updated : Z;
}.
End Persona.

(** ** store/slices/conversationSlice.ts *)

(** One entry of [conversationStatus]. *)
Module TurnStatus.
Record t := mk {
  status : Status;
  currentSpeakerId : option string;
  lastMessageId : option string;
}.
End TurnStatus.

Module ConversationState.
Record t := mk {
  conversations : list Conversation.t;
  activeConversationId : option string;
  conversationStatus : gmap string TurnStatus.t;
  isLoading : bool;
  error : option string;
}.

Definition set_conversations (cs : list Conversation.t) (s : t) : t :=
  mk cs (activeConversationId s) (conversationStatus s) (isLoading s) (error s).

Definition set_activeConversationId (a : option string) (s : t) : t :=
  mk (conversations s) a (conversationStatus s) (isLoading s) (error s).

Definition set_conversationStatus (m : gmap string TurnStatus.t) (s : t) : t :=
  mk (conversations s) (activeConversationId s) m (isLoading s) (error s).
End ConversationState.

Definition initialState : ConversationState.t :=
  ConversationState.mk [] None ∅ false None.

(** [Array.prototype.findIndex]: the index of the first element that
    satisfies [p]; [None] stands for -1. *)
Fixpoint findIndex {A : Type} (p : A -> bool) (l : list A) : option nat :=
  match l with
  | [] => None
  | x :: l' => if p x then Some 0 else S <$> findIndex p l'
  end.

(** [array[i] = f(array[i])] on an index obtained from [findIndex]. *)
Definition update_at {A : Type} (i : nat) (f : A -> A) (l : list A) : list A :=
  match l !! i with
  | Some x => <[i := f x]> l
  | None => l
  end.

(** [x || y] on strings: the empty string and [undefined] are falsy. *)
Definition or_else (x : option string) (y : string) : string :=
  match x with
  | Some s => if String.eqb s "" then y else s
  | None => y
  end.

(** Payload of [createConversation]. *)
Module CreateConversation.
Record t := mk {
  id : option string;
  title : string;
  participants : list string;
}.
End CreateConversation.

(** [uuid] is what [uuidv4()] would return; as in the source it is only
    consulted when the payload carries no usable id. *)
Definition createConversation (uuid : string) (now1 now2 : Z)
    (p : CreateConversation.t) (s : ConversationState.t) : ConversationState.t :=
  let newConversation :=
    Conversation.mk (or_else (CreateConversation.id p) uuid)
      (CreateConversation.title p) now1 now2
      (CreateConversation.participants p) [] None None true in
  ConversationState.mk
    (ConversationState.conversations s ++ [newConversation])
    (Some (Conversation.id newConversation))
    (<[Conversation.id newConversation := TurnStatus.mk idle None None]>
       (ConversationState.conversationStatus s))
    (ConversationState.isLoading s) (ConversationState.error s).

(** Payload of [addMessage]: [Omit<Message, 'id' | 'timestamp'>]. *)
Module AddMessage.
Record t := mk {
  conversationId : string;
  senderId : string;
  senderType : SenderType;
  content : string;
  replyToId : option string;
  metadata : option Metadata.t;
}.
End AddMessage.

Definition newMessage (uuid : string) (now : Z) (p : AddMessage.t) : Message.t :=
  Message.mk uuid (AddMessage.conversationId p) (AddMessage.senderId p)
    (AddMessage.senderType p) (AddMessage.content p) now
    (AddMessage.replyToId p) (AddMessage.metadata p).

Definition has_id (i : string) (c : Conversation.t) : bool :=
  String.eqb (Conversation.id c) i.

Definition msg_has_id (i : string) (m : Message.t) : bool :=
  String.eqb (Message.id m) i.

(** [uuid] is the result of [uuidv4()], [now1] and [now2] the two readings of
    [Date.now()] (message timestamp, conversation [updated]). *)
Definition addMessage (uuid : string) (now1 now2 : Z)
    (p : AddMessage.t) (s : ConversationState.t) : ConversationState.t :=
  match findIndex (has_id (AddMessage.conversationId p))
          (ConversationState.conversations s) with
  | Some conversationIndex =>
      let m := newMessage uuid now1 p in
      let s1 :=
        ConversationState.set_conversations
          (update_at conversationIndex
             (fun c =>
                Conversation.set_updated now2
                  (Conversation.set_messages (Conversation.messages c ++ [m]) c))
             (ConversationState.conversations s)) s in
      match Message.senderType m with
      | user =>
          ConversationState.set_conversationStatus
            (<[Message.conversationId m :=
                 TurnStatus.mk idle None (Some (Message.id m))]>
               (ConversationState.conversationStatus s1)) s1
      | _ => s1
      end
  | None => s
  end.

(** Payload of [updateMessage]: [Partial<Message> & { id; conversationId }].
    [None] is an absent key.  For the two properties that [Message] itself
    declares optional the key may be present and hold [undefined]
    ([Some None]), which the spread then copies. *)
Module UpdateMessage.
Record t := mk {
  id : string;
  conversationId : string;
  senderId : option string;
  senderType : option SenderType;
  content : option string;
  timestamp : option Z;
  replyToId : option (option string);
  metadata : option (option Metadata.t);
}.
End UpdateMessage.

(** [{ ...message, ...action.payload }] *)
Definition merge (m : Message.t) (p : UpdateMessage.t) : Message.t :=
  Message.mk (UpdateMessage.id p) (UpdateMessage.conversationId p)
    (default (Message.senderId m) (UpdateMessage.senderId p))
    (default (Message.senderType m) (UpdateMessage.senderType p))
    (default (Message.content m) (UpdateMessage.content p))
    (default (Message.timestamp m) (UpdateMessage.timestamp p))
    (default (Message.replyToId m) (UpdateMessage.replyToId p))
    (default (Message.metadata m) (UpdateMessage.metadata p)).

(** [s.length]: the number of UTF-16 code units of the JS string, read off
    its UTF-8 bytes.  A byte that starts a code point of up to three bytes
    stands for one unit, a byte that starts a four-byte code point for the
    two units of a surrogate pair, a continuation byte for none. *)
Definition code_units (a : Ascii.ascii) : nat :=
  let n := Ascii.nat_of_ascii a in
  if (n <? 128)%nat then 1
  else if (n <? 192)%nat then 0
  else if (n <? 240)%nat then 1
  else 2.

Fixpoint js_length (s : string) : nat :=
  match s with
  | EmptyString => 0
  | String a s' => code_units a + js_length s'
  end.

(** The placeholder a message shows until its first content arrives. *)
Definition placeholder : string := "...".

(** [newContent && prevContent !== newContent &&
     (prevContent === '...' || newContent.length > prevContent.length + 20)],
    read as a condition. *)
Definition isCompleteMessage (prevContent : string) (newContent : option string) : bool :=
  match newContent with
  | None => false
  | Some n =>
      negb (String.eqb n "")
      && negb (String.eqb prevContent n)
      && (String.eqb prevContent placeholder
          || (js_length prevContent + 20 <? js_length n)%nat)
  end.

(** [action.payload.metadata?.isGenerating === false] *)
Definition marksFinished (p : UpdateMessage.t) : bool :=
  match UpdateMessage.metadata p with
  | Some (Some md) =>
      match Metadata.isGenerating md with
      | Some false => true
      | _ => false
      end
  | _ => false
  end.

Definition updateMessage (now : Z) (p : UpdateMessage.t)
    (s : ConversationState.t) : ConversationState.t :=
  match findIndex (has_id (UpdateMessage.conversationId p))
          (ConversationState.conversations s) with
  | None => s
  | Some conversationIndex =>
      match ConversationState.conversations s !! conversationIndex with
      | None => s
      | Some c =>
          match findIndex (msg_has_id (UpdateMessage.id p)) (Conversation.messages c) with
          | None => s
          | Some messageIndex =>
              match Conversation.messages c !! messageIndex with
              | None => s
              | Some prev =>
                  let complete :=
                    isCompleteMessage (Message.content prev) (UpdateMessage.content p) in
                  let c' :=
                    Conversation.set_updated now
                      (Conversation.set_messages
                         (<[messageIndex := merge prev p]> (Conversation.messages c)) c) in
                  let s1 :=
                    ConversationState.set_conversations
                      (<[conversationIndex := c']> (ConversationState.conversations s)) s in
                  if complete && marksFinished p then
                    ConversationState.set_conversationStatus
                      (<[UpdateMessage.conversationId p :=
                           TurnStatus.mk idle None (Some (UpdateMessage.id p))]>
                         (ConversationState.conversationStatus s1)) s1
                  else s1
              end
          end
      end
  end.

(** Payload of [createBranch]. *)
Module CreateBranch.
Record t := mk {
  parentId : string;
  branchId : string;
  startFromMessageId : string;
  title : string;
}.
End CreateBranch.

Definition createBranch (now1 now2 : Z) (p : CreateBranch.t)
    (s : ConversationState.t) : ConversationState.t :=
  match findIndex (has_id (CreateBranch.parentId p))
          (ConversationState.conversations s) with
  | None => s
  | Some parentIndex =>
      match ConversationState.conversations s !! parentIndex with
      | None => s
      | Some parentConversation =>
          match findIndex (msg_has_id (CreateBranch.startFromMessageId p))
                  (Conversation.messages parentConversation) with
          | None => s
          | Some messageIndex =>
              let branchMessages :=
                take (S messageIndex) (Conversation.messages parentConversation) in
              let branch :=
                Conversation.mk (CreateBranch.branchId p) (CreateBranch.title p)
                  now1 now2 (Conversation.participants parentConversation)
                  branchMessages None (Some (CreateBranch.parentId p)) true in
              let parent' :=
                Conversation.set_branches
                  (Some (<[CreateBranch.branchId p := branch]>
                           (default ∅ (Conversation.branches parentConversation))))
                  parentConversation in
              ConversationState.set_activeConversationId
                (Some (CreateBranch.branchId p))
                (ConversationState.set_conversations
                   (<[parentIndex := parent']> (ConversationState.conversations s)
                    ++ [branch]) s)
          end
      end
  end.

Definition setConversationStatus (conversationId : string) (status : Status)
    (currentSpeakerId : option string) (s : ConversationState.t) : ConversationState.t :=
  ConversationState.set_conversationStatus
    (<[conversationId :=
         TurnStatus.mk status currentSpeakerId
           (ConversationState.conversationStatus s !! conversationId
              ≫= TurnStatus.lastMessageId)]>
       (ConversationState.conversationStatus s)) s.

(** The selector the controls use:
    [state.conversations.conversationStatus[id] || { status: "idle" }]. *)
Definition statusOf (conversationId : string) (s : ConversationState.t) : Status :=
  match ConversationState.conversationStatus s !! conversationId with
  | Some e => TurnStatus.status e
  | None => idle
  end.

Definition lastMessageIdOf (conversationId : string) (s : ConversationState.t)
    : option string :=
  ConversationState.conversationStatus s !! conversationId ≫= TurnStatus.lastMessageId.

(** The conversation that [findIndex] selects for an id (the first one that
    carries it), its messages, and the message it selects for a message id. *)
Definition conversationOf (conversationId : string) (s : ConversationState.t)
    : option Conversation.t :=
  i ← findIndex (has_id conversationId) (ConversationState.conversations s);
  ConversationState.conversations s !! i.

Definition messagesOf (conversationId : string) (s : ConversationState.t)
    : option (list Message.t) :=
  Conversation.messages <$> conversationOf conversationId s.

Definition messageOf (conversationId messageId : string) (s : ConversationState.t)
    : option Message.t :=
  ms ← messagesOf conversationId s;
  i ← findIndex (msg_has_id messageId) ms;
  ms !! i.

(** A run of [addMessage] dispatches, each with the id and the clock readings
    its reducer call obtains. *)
Module AddCall.
Record t := mk {
  uuid : string;
  now1 : Z;
  now2 : Z;
  payload : AddMessage.t;
}.
End AddCall.




Definition landsAt (s : ConversationState.t) (i : nat) (c : AddCall.t) : Prop :=
  findIndex (has_id (AddMessage.conversationId (AddCall.payload c)))
    (ConversationState.conversations s) = Some i.

#[local] Instance landsAt_dec s i c : Decision (landsAt s i c).
Proof. unfold landsAt. apply _. Defined.

(** ** services/websocket.ts

    The service also posts notifications to the ui slice and calls the
    subscribers registered with [on]; the application registers none, and
    neither touches the conversation store or the fields below, so both are
    left out. *)

(** What the client puts in the [data] of an outbound envelope. *)
Inductive Data :=
| conversation_ref (conversation_id : string)
| persona_ref (persona : Persona.t)
| other_data (json : string).

Module Envelope.
Record t := mk {
  type : string;
  data : Data;
}.
End Envelope.

Inductive ReadyState := CONNECTING | OPEN | CLOSING | CLOSED.

#[global] Instance ReadyState_eq_dec : EqDecision ReadyState.
Proof. solve_decision. Defined.

(** The browser socket: its ready state and the frames handed to its [send],
    each the [JSON.stringify] of one envelope. *)
Module WebSocket.
Record t := mk {
  readyState : ReadyState;
  sent : list Envelope.t;
}.
End WebSocket.

(** The fields of the service that its methods read or write, and the
    reconnect timers it has armed with [setTimeout] (delay in milliseconds). *)
Module WebSocketService.
Record t := mk {
  socket : option WebSocket.t;
  reconnectAttempts : nat;
  isEnabled : bool;
  timers : list Q;
}.

Definition set_socket (k : option WebSocket.t) (ws : t) : t :=
  mk k (reconnectAttempts ws) (isEnabled ws) (timers ws).

Definition set_reconnectAttempts (n : nat) (ws : t) : t :=
  mk (socket ws) n (isEnabled ws) (timers ws).

Definition set_isEnabled (b : bool) (ws : t) : t :=
  mk (socket ws) (reconnectAttempts ws) b (timers ws).

Definition set_timers (ts : list Q) (ws : t) : t :=
  mk (socket ws) (reconnectAttempts ws) (isEnabled ws) ts.
End WebSocketService.

Definition maxReconnectAttempts : nat := 5.

Definition reconnectDelay : Q := 1000%Q.

Definition newService : WebSocketService.t :=
  WebSocketService.mk None 0 false [].

(** [this.socket && this.socket.readyState === WebSocket.OPEN] *)
Definition isOpen (ws : WebSocketService.t) : bool :=
  match WebSocketService.socket ws with
  | Some k => bool_decide (WebSocket.readyState k = OPEN)
  | None => false
  end.

Definition send (type : string) (data : Data) (ws : WebSocketService.t)
    : bool * WebSocketService.t :=
  match WebSocketService.socket ws with
  | Some k =>
      if bool_decide (WebSocket.readyState k = OPEN) then
        (true,
         WebSocketService.set_socket
           (Some (WebSocket.mk (WebSocket.readyState k)
                    (WebSocket.sent k ++ [Envelope.mk type data]))) ws)
      else (false, ws)
  | None => (false, ws)
  end.

(** [Math.min(reconnectDelay * Math.pow(1.5, attempts - 1), 30000)].  The
    values are dyadic rationals, which a double holds exactly over the range
    the counter takes. *)
Definition backoff (attempts : nat) : Q :=
  Qmin (reconnectDelay * Qpower (3 # 2) (Z.of_nat attempts - 1)) 30000%Q.

Definition attemptReconnect (ws : WebSocketService.t) : WebSocketService.t :=
  let n := S (WebSocketService.reconnectAttempts ws) in
  WebSocketService.set_timers (WebSocketService.timers ws ++ [backoff n])
    (WebSocketService.set_reconnectAttempts n ws).

(** [socket.onopen] *)
Definition onopen (ws : WebSocketService.t) : WebSocketService.t :=
  WebSocketService.set_reconnectAttempts 0
    (WebSocketService.set_socket
       ((fun k => WebSocket.mk OPEN (WebSocket.sent k)) <$> WebSocketService.socket ws) ws).

(** [socket.onclose], given [event.wasClean]. *)
Definition onclose (wasClean : bool) (ws : WebSocketService.t) : WebSocketService.t :=
  if negb wasClean
     && (WebSocketService.reconnectAttempts ws <? maxReconnectAttempts)%nat
     && WebSocketService.isEnabled ws
  then attemptReconnect ws
  else ws.

(** [connect()] runs in two parts.  It first tests [isEnabled] and, if the
    service is enabled, starts the availability probe and suspends.
    [connect_resume] is the rest, run when the probe has answered, given its
    outcome and whether the [WebSocket] constructor throws: it does not test
    [isEnabled] again before it constructs the socket. *)
Definition connect_resume (isAvailable ctorThrows : bool) (ws : WebSocketService.t)
    : WebSocketService.t :=
  if negb isAvailable then ws
  else if ctorThrows then
    (if WebSocketService.isEnabled ws then attemptReconnect ws else ws)
  else WebSocketService.set_socket (Some (WebSocket.mk CONNECTING [])) ws.

(** A [connect()] during whose probe nothing else happens. *)
Definition connect (isAvailable ctorThrows : bool) (ws : WebSocketService.t)
    : WebSocketService.t :=
  if negb (WebSocketService.isEnabled ws) then ws
  else connect_resume isAvailable ctorThrows ws.

Definition disconnect (ws : WebSocketService.t) : WebSocketService.t :=
  match WebSocketService.socket ws with
  | Some _ => WebSocketService.set_socket None ws
  | None => ws
  end.

Definition setEnabled (enabled isAvailable ctorThrows : bool)
    (ws : WebSocketService.t) : WebSocketService.t :=
  let ws1 := WebSocketService.set_isEnabled enabled ws in
  match enabled, WebSocketService.socket ws1 with
  | true, None => connect isAvailable ctorThrows ws1
  | false, Some _ => disconnect ws1
  | _, _ => ws1
  end.

(** The callback armed by [attemptReconnect], when timer [k] fires. *)
Definition reconnectTimer (k : nat) (isAvailable ctorThrows : bool)
    (ws : WebSocketService.t) : WebSocketService.t :=
  match WebSocketService.timers ws !! k with
  | None => ws
  | Some _ =>
      let ws1 := WebSocketService.set_timers (delete k (WebSocketService.timers ws)) ws in
      if negb (isOpen ws1) && WebSocketService.isEnabled ws1
      then connect isAvailable ctorThrows ws1
      else ws1
  end.

(** What can happen to the service between two of its own steps.  A
    [connect()] that is overtaken by other events while it waits for the
    probe shows as the event that called it, with the probe taken as failed
    (the service is then as the call left it), followed later by
    [ev_connect_resume] with the probe's outcome.  The events do not record
    which calls are waiting, so they allow every run of the code and some
    more. *)
Inductive ServiceEvent :=
| ev_open
| ev_close (wasClean : bool)
| ev_timer (k : nat) (isAvailable ctorThrows : bool)
| ev_connect (isAvailable ctorThrows : bool)
| ev_connect_resume (isAvailable ctorThrows : bool)
| ev_setEnabled (enabled isAvailable ctorThrows : bool)
| ev_disconnect
| ev_send (type : string) (data : Data).

Definition service_step (e : ServiceEvent) (ws : WebSocketService.t)
    : WebSocketService.t :=
  match e with
  | ev_open => onopen ws
  | ev_close wasClean => onclose wasClean ws
  | ev_timer k a t => reconnectTimer k a t ws
  | ev_connect a t => connect a t ws
  | ev_connect_resume a t => connect_resume a t ws
  | ev_setEnabled b a t => setEnabled b a t ws
  | ev_disconnect => disconnect ws
  | ev_send ty d => (send ty d ws).2
  end.

Definition service_run (es : list ServiceEvent) (ws : WebSocketService.t)
    : WebSocketService.t :=
  foldl (fun w e => service_step e w) ws es.

(** The [WebSocket] constructor does not throw in this event. *)
Definition ctor_ok (e : ServiceEvent) : bool :=
  match e with
  | ev_timer _ _ t | ev_connect _ t | ev_connect_resume _ t
  | ev_setEnabled _ _ t => negb t
  | _ => true
  end.

(** Inbound frames, after [JSON.parse]. *)
Module Chunk.
Record t := mk {
  conversationId : string;
  messageId : string;
  chunk : string;
}.
End Chunk.

Module WireMessage.
Record t := mk {
  id : string;
  conversationId : option string;
  content : string;
  metadata : option Metadata.t;
}.
End WireMessage.

Module ErrorFrame.
Record t := mk {
  message : option string;
  messageId : option string;
  id : option string;
  conversationId : option string;
}.
End ErrorFrame.

Inductive Inbound :=
| message_chunk (d : Chunk.t)
| message_complete (message : option WireMessage.t)
| error_frame (d : ErrorFrame.t)
| other_frame (type : string)
| malformed.

Definition handleMessageChunk (now : Z) (d : Chunk.t)
    (s : ConversationState.t) : ConversationState.t :=
  updateMessage now
    (UpdateMessage.mk (Chunk.messageId d) (Chunk.conversationId d)
       None None (Some (Chunk.chunk d)) None None None) s.

(** The action that [handleMessageComplete] dispatches for [message]. *)
Definition completePayload (m : WireMessage.t) : UpdateMessage.t :=
  UpdateMessage.mk (WireMessage.id m)
    (or_else (WireMessage.conversationId m) (WireMessage.id m))
    None None (Some (WireMessage.content m)) None None
    (Some (WireMessage.metadata m)).

Definition handleMessageComplete (now : Z) (message : option WireMessage.t)
    (s : ConversationState.t) : ConversationState.t :=
  match message with
  | Some m => updateMessage now (completePayload m) s
  | None => s
  end.

Definition truthy (x : option string) : option string :=
  match x with
  | Some s => if String.eqb s "" then None else Some s
  | None => None
  end.

Definition errorMetadata (d : ErrorFrame.t) : Metadata.t :=
  Metadata.mk None None None
    (Some (or_else (ErrorFrame.message d) "Failed to generate response")) None.

Definition handleError (now : Z) (d : ErrorFrame.t)
    (s : ConversationState.t) : ConversationState.t :=
  match truthy (ErrorFrame.messageId d), truthy (ErrorFrame.id d),
        truthy (ErrorFrame.conversationId d) with
  | Some mid, _, Some cid =>
      updateMessage now
        (UpdateMessage.mk mid cid None None None None None
           (Some (Some (errorMetadata d)))) s
  | None, Some i, Some cid =>
      updateMessage now
        (UpdateMessage.mk i cid None None None None None
           (Some (Some (errorMetadata d)))) s
  | _, _, _ => s
  end.

(** [socket.onmessage], as far as it touches the conversation store.  Other
    tags go to the subscribers registered with [on]; a frame that does not
    parse is logged and dropped. *)
Definition onmessage (now : Z) (f : Inbound) (s : ConversationState.t)
    : ConversationState.t :=
  match f with
  | message_chunk d => handleMessageChunk now d s
  | message_complete m => handleMessageComplete now m s
  | error_frame d => handleError now d s
  | other_frame _ => s
  | malformed => s
  end.

(** ** components/conversation/ConversationControls.tsx *)

(** What the handlers created by one render close over.  A handler invoked
    from the page uses the latest render; a [setTimeout] or [setInterval]
    callback keeps the render in which it was created. *)
Module Render.
Record t := mk {
  status : Status;
  isAutoMode : bool;
  participants : list string;
  personas : list Persona.t;
  turnDelay : Z;
}.

Definition isGenerating (r : t) : bool := bool_decide (status r = generating).
Definition isPaused (r : t) : bool := bool_decide (status r = paused).
Definition isStopped (r : t) : bool := bool_decide (status r = stopped).
End Render.

(** Callbacks waiting in [setTimeout]. *)
Inductive Timeout :=
| after_send (r : Render.t)
| after_start (r : Render.t).

(** The page: the two store slices and the setting the component selects,
    the transport singleton, the component's own state and ref, and the
    timers it has armed.  [calls] lists every [websocketService.send(type,
    data)] the component has made, in order; whether a call reached the wire
    is recorded in the socket. *)
Module World.
Record t := mk {
  store : ConversationState.t;
  personas : list Persona.t;
  messageDelay : Z;
  service : WebSocketService.t;
  calls : list Envelope.t;
  isAutoMode : bool;
  autoModeRef : option nat;
  timeouts : list Timeout;
  intervals : list (nat * Render.t);
  nextHandle : nat;
}.

Definition set_store (s : ConversationState.t) (w : t) : t :=
  mk s (personas w) (messageDelay w) (service w) (calls w) (isAutoMode w)
     (autoModeRef w) (timeouts w) (intervals w) (nextHandle w).

Definition set_service (v : WebSocketService.t) (w : t) : t :=
  mk (store w) (personas w) (messageDelay w) v (calls w) (isAutoMode w)
     (autoModeRef w) (timeouts w) (intervals w) (nextHandle w).

Definition set_calls (l : list Envelope.t) (w : t) : t :=
  mk (store w) (personas w) (messageDelay w) (service w) l (isAutoMode w)
     (autoModeRef w) (timeouts w) (intervals w) (nextHandle w).

Definition set_isAutoMode (b : bool) (w : t) : t :=
  mk (store w) (personas w) (messageDelay w) (service w) (calls w) b
     (autoModeRef w) (timeouts w) (intervals w) (nextHandle w).

Definition set_autoModeRef (h : option nat) (w : t) : t :=
  mk (store w) (personas w) (messageDelay w) (service w) (calls w) (isAutoMode w)
     h (timeouts w) (intervals w) (nextHandle w).

Definition set_timeouts (l : list Timeout) (w : t) : t :=
  mk (store w) (personas w) (messageDelay w) (service w) (calls w) (isAutoMode w)
     (autoModeRef w) l (intervals w) (nextHandle w).

Definition set_intervals (l : list (nat * Render.t)) (w : t) : t :=
  mk (store w) (personas w) (messageDelay w) (service w) (calls w) (isAutoMode w)
     (autoModeRef w) (timeouts w) l (nextHandle w).

Definition set_nextHandle (n : nat) (w : t) : t :=
  mk (store w) (personas w) (messageDelay w) (service w) (calls w) (isAutoMode w)
     (autoModeRef w) (timeouts w) (intervals w) n.
End World.

(** The white space and line terminators that [String.prototype.trim]
    strips, by the UTF-8 bytes of their code points: U+0009 to U+000D and
    U+0020 on one byte; U+00A0 on two; U+1680, U+2000 to U+200A, U+2028,
    U+2029, U+202F, U+205F, U+3000 and U+FEFF on three. *)
Definition is_space (a : Ascii.ascii) : bool :=
  let n := Ascii.nat_of_ascii a in
  ((9 <=? n)%nat && (n <=? 13)%nat) || (n =? 32)%nat.

Definition is_space2 (a b : Ascii.ascii) : bool :=
  (Ascii.nat_of_ascii a =? 194)%nat && (Ascii.nat_of_ascii b =? 160)%nat.

Definition is_space3 (a b c : Ascii.ascii) : bool :=
  let x := Ascii.nat_of_ascii a in
  let y := Ascii.nat_of_ascii b in
  let z := Ascii.nat_of_ascii c in
  ((x =? 225) && (y =? 154) && (z =? 128))%nat
  || ((x =? 226) && (y =? 128)
      && (((128 <=? z) && (z <=? 138)) || (z =? 168) || (z =? 169) || (z =? 175)))%nat
  || ((x =? 226) && (y =? 129) && (z =? 159))%nat
  || ((x =? 227) && (y =? 128) && (z =? 128))%nat
  || ((x =? 239) && (y =? 187) && (z =? 191))%nat.

(** [!message.trim()]: the text consists of such characters only. *)
Fixpoint is_blank (s : string) : bool :=
  match s with
  | EmptyString => true
  | String a s1 =>
      if is_space a then is_blank s1
      else
        match s1 with
        | EmptyString => false
        | String b s2 =>
            if is_space2 a b then is_blank s2
            else
              match s2 with
              | EmptyString => false
              | String c s3 => is_space3 a b c && is_blank s3
              end
        end
  end.

Section Controls.

(** The props of the component. *)
Variable conversationId : string.
Variable participants : list string.

(** One render: the selectors and the component state as they are now. *)
Definition render (w : World.t) : Render.t :=
  Render.mk (statusOf conversationId (World.store w)) (World.isAutoMode w)
    participants (World.personas w)
    (if (World.messageDelay w =? 0)%Z then 2000%Z else World.messageDelay w).

(** [dispatch(setConversationStatus({ conversationId, status }))] *)
Definition dispatchStatus (st : Status) (w : World.t) : World.t :=
  World.set_store (setConversationStatus conversationId st None (World.store w)) w.

(** [websocketService.send(type, data)], result ignored. *)
Definition wsSend (type : string) (data : Data) (w : World.t) : World.t :=
  World.set_calls (World.calls w ++ [Envelope.mk type data])
    (World.set_service (send type data (World.service w)).2 w).

Definition clearAutoModeInterval (w : World.t) : World.t :=
  match World.autoModeRef w with
  | Some h =>
      World.set_autoModeRef None
        (World.set_intervals
           (filter (fun x => x.1 ≠ h) (World.intervals w)) w)
  | None => w
  end.

Definition resetConversation (r : Render.t) (w : World.t) : World.t :=
  let w1 := dispatchStatus idle w in
  if Render.isAutoMode r
  then World.set_isAutoMode false (clearAutoModeInterval w1)
  else w1.

(** [send] returns a boolean and does not throw, so the [catch] arm of the
    source is never entered. *)
Definition triggerNextTurn (r : Render.t) (w : World.t) : World.t :=
  if Render.isGenerating r || Render.isPaused r || Render.isStopped r then w
  else
    wsSend "multi_agent_next_turn" (conversation_ref conversationId)
      (dispatchStatus generating w).

(** [personas.find(p => p.id === participantId)] *)
Definition findPersona (personas : list Persona.t) (participantId : string)
    : option Persona.t :=
  List.find (fun p => String.eqb (Persona.id p) participantId) personas.

(** The body of the [participants.forEach] in [startAutoMode]. *)
Definition registerParticipant (r : Render.t) (w : World.t) (participantId : string)
    : World.t :=
  match findPersona (Render.personas r) participantId with
  | Some persona => wsSend "register_persona" (persona_ref persona) w
  | None => w
  end.

Definition startAutoMode (r : Render.t) (w : World.t) : World.t :=
  let w1 :=
    if Render.isPaused r || Render.isStopped r then resetConversation r w else w in
  let w2 := World.set_isAutoMode true w1 in
  let w3 := foldl (registerParticipant r) w2 (Render.participants r) in
  World.set_timeouts (World.timeouts w3 ++ [after_start r]) w3.

Definition stopAutoMode (w : World.t) : World.t :=
  clearAutoModeInterval (World.set_isAutoMode false w).

(** The callback of the [setInterval] armed by [startAutoMode]. *)
Definition autoTick (r : Render.t) (w : World.t) : World.t :=
  match Render.status r with
  | generating | paused | stopped => w
  | idle => triggerNextTurn r w
  end.

(** The callback of the [setTimeout] armed by [startAutoMode]. *)
Definition autoStart (r : Render.t) (w : World.t) : World.t :=
  let w1 := if negb (Render.isGenerating r) then triggerNextTurn r w else w in
  let h := World.nextHandle w1 in
  World.set_autoModeRef (Some h)
    (World.set_intervals (World.intervals w1 ++ [(h, r)])
       (World.set_nextHandle (S h) w1)).

Definition handlePause (r : Render.t) (w : World.t) : World.t :=
  if Render.isPaused r then
    let w1 := dispatchStatus idle w in
    if Render.isAutoMode r then startAutoMode r w1 else w1
  else
    let w1 := dispatchStatus paused w in
    if Render.isAutoMode r then clearAutoModeInterval w1 else w1.

Definition handleStop (r : Render.t) (w : World.t) : World.t :=
  let w1 := dispatchStatus stopped w in
  let w2 :=
    if Render.isAutoMode r
    then World.set_isAutoMode false (clearAutoModeInterval w1)
    else w1 in
  wsSend "stop_generation" (conversation_ref conversationId) w2.

Definition handleSendMessage (r : Render.t) (message uuid : string) (now1 now2 : Z)
    (w : World.t) : World.t :=
  if is_blank message then w
  else
    let w1 :=
      World.set_store
        (addMessage uuid now1 now2
           (AddMessage.mk conversationId "user" user message None None)
           (World.store w)) w in
    let w2 := dispatchStatus idle w1 in
    if Render.isAutoMode r
    then World.set_timeouts (World.timeouts w2 ++ [after_send r]) w2
    else w2.

(** What can happen on the page. *)
Inductive UiEvent :=
| click_auto
| click_next
| click_pause
| click_stop
| submit (message uuid : string) (now1 now2 : Z)
| fire_timeout (k : nat)
| fire_interval (h : nat)
| inbound (now : Z) (f : Inbound)
| transport (e : ServiceEvent).

(** One event.  A control that the current render shows disabled does not
    deliver its event. *)
Definition ui_step (e : UiEvent) (w : World.t) : World.t :=
  let r := render w in
  match e with
  | click_auto =>
      if Render.isStopped r then w
      else if Render.isAutoMode r then stopAutoMode w else startAutoMode r w
  | click_next =>
      if Render.isAutoMode r || Render.isGenerating r
         || Render.isPaused r || Render.isStopped r
      then w else triggerNextTurn r w
  | click_pause => if Render.isStopped r then w else handlePause r w
  | click_stop => if Render.isStopped r then w else handleStop r w
  | submit message uuid now1 now2 =>
      if Render.isStopped r then w else handleSendMessage r message uuid now1 now2 w
  | fire_timeout k =>
      match World.timeouts w !! k with
      | None => w
      | Some t =>
          let w1 := World.set_timeouts (delete k (World.timeouts w)) w in
          match t with
          | after_send r0 => triggerNextTurn r0 w1
          | after_start r0 => autoStart r0 w1
          end
      end
  | fire_interval h =>
      match List.find (fun x => (x.1 =? h)%nat) (World.intervals w) with
      | Some (_, r0) => autoTick r0 w
      | None => w
      end
  | inbound now f => World.set_store (onmessage now f (World.store w)) w
  | transport e' => World.set_service (service_step e' (World.service w)) w
  end.

Definition ui_run (es : list UiEvent) (w : World.t) : World.t :=
  foldl (fun w e => ui_step e w) w es.

End Controls.

(** Events whose handler belongs to the latest render, as opposed to timer
    callbacks, which belong to the render that armed them. *)
Definition from_latest_render (e : UiEvent) : bool :=
  match e with
  | fire_timeout _ | fire_interval _ => false
  | _ => true
  end.

(** The commands [startAutoMode] issues for a render: one [register_persona]
    per entry of the participant list that [find] resolves to a persona, in
    list order. *)
Definition registrations (r : Render.t) : list Envelope.t :=
  (fun persona => Envelope.mk "register_persona" (persona_ref persona))
    <$> omap (findPersona (Render.personas r)) (Render.participants r).

(** Handing a list of envelopes to [send], one after the other. *)
Definition sendAll (es : list Envelope.t) (ws : WebSocketService.t)
    : WebSocketService.t :=
  foldl (fun v e => (send (Envelope.type e) (Envelope.data e) v).2) ws es.

(** ** conversationSlice.ts: the remaining reducers *)

Definition deleteConversation (conversationId : string) (s : ConversationState.t)
    : ConversationState.t :=
  let cs := filter (fun c => Conversation.id c <> conversationId)
              (ConversationState.conversations s) in
  ConversationState.mk cs
    (if decide (ConversationState.activeConversationId s = Some conversationId)
     then Conversation.id <$> head cs
     else ConversationState.activeConversationId s)
    (ConversationState.conversationStatus s)
    (ConversationState.isLoading s) (ConversationState.error s).

Definition setActiveConversation (conversationId : string) (s : ConversationState.t)
    : ConversationState.t :=
  ConversationState.set_activeConversationId (Some conversationId) s.

(** Payload [{ id, conversationId }]; [now] is the reading of [Date.now()]. *)
Definition deleteMessage (now : Z) (messageId conversationId : string)
    (s : ConversationState.t) : ConversationState.t :=
  match findIndex (has_id conversationId) (ConversationState.conversations s) with
  | Some conversationIndex =>
      ConversationState.set_conversations
        (update_at conversationIndex
           (fun c =>
              Conversation.set_updated now
                (Conversation.set_messages
                   (filter (fun m => Message.id m <> messageId) (Conversation.messages c))
                   c))
           (ConversationState.conversations s)) s
  | None => s
  end.

(** Payload of [updateConversation]: [Partial<Conversation> & { id }], with
    the same reading of absent keys as for [updateMessage]. *)
Module UpdateConversation.
Record t := mk {
  id : string;
  title : option string;
  created : option Z;
  updated : option Z;
  participants : option (list string);
  messages : option (list Message.t);
  branches : option (option (gmap string Conversation.t));
  parentId : option (option string);
  isActive : option bool;
}.
End UpdateConversation.

(** [{ ...conversation, ...action.payload, updated: Date.now() }] *)
Definition updateConversation (now : Z) (p : UpdateConversation.t)
    (s : ConversationState.t) : ConversationState.t :=
  match findIndex (has_id (UpdateConversation.id p))
          (ConversationState.conversations s) with
  | Some index =>
      ConversationState.set_conversations
        (update_at index
           (fun c =>
              Conversation.mk (UpdateConversation.id p)
                (default (Conversation.title c) (UpdateConversation.title p))
                (default (Conversation.created c) (UpdateConversation.created p))
                now
                (default (Conversation.participants c) (UpdateConversation.participants p))
                (default (Conversation.messages c) (UpdateConversation.messages p))
                (default (Conversation.branches c) (UpdateConversation.branches p))
                (default (Conversation.parentId c) (UpdateConversation.parentId p))
                (default (Conversation.isActive c) (UpdateConversation.isActive p)))
           (ConversationState.conversations s)) s
  | None => s
  end.

(** ** personaSlice.ts and middleware/personaMiddleware.ts *)

Module PersonaState.
Record t := mk {
  personas : list Persona.t;
  activePersonaId : option string;
  isLoading : bool;
  error : option string;
}.
End PersonaState.

(** Payload of [addPersona]: [Omit<Persona, 'id' | 'created' | 'updated'>]. *)
Module AddPersona.
Record t := mk {
  name : string;
  avatar : string;
  systemPrompt : string;
  modelId : string;
  conversationStyle : string;
}.
End AddPersona.

(** Payload of [updatePersona]: [Partial<Persona> & { id }]. *)
Module UpdatePersona.
Record t := mk {
  id : string;
  name : option string;
  avatar : option string;
  systemPrompt : option string;
  modelId : option string;
  conversationStyle : option string;
  created : option Z;
  updated : option Z;
}.
End UpdatePersona.

Definition addPersona (uuid : string) (now1 now2 : Z) (p : AddPersona.t)
    (s : PersonaState.t) : PersonaState.t :=
  PersonaState.mk
    (PersonaState.personas s
     ++ [Persona.mk uuid (AddPersona.name p) (AddPersona.avatar p)
           (AddPersona.systemPrompt p) (AddPersona.modelId p)
           (AddPersona.conversationStyle p) now1 now2])
    (PersonaState.activePersonaId s) (PersonaState.isLoading s) (PersonaState.error s).

Definition persona_has_id (i : string) (p : Persona.t) : bool :=
  String.eqb (Persona.id p) i.

(** [{ ...persona, ...action.payload, updated: Date.now() }] *)
Definition updatePersona (now : Z) (p : UpdatePersona.t) (s : PersonaState.t)
    : PersonaState.t :=
  match findIndex (persona_has_id (UpdatePersona.id p)) (PersonaState.personas s) with
  | Some index =>
      PersonaState.mk
        (update_at index
           (fun q =>
              Persona.mk (UpdatePersona.id p)
                (default (Persona.name q) (UpdatePersona.name p))
                (default (Persona.avatar q) (UpdatePersona.avatar p))
                (default (Persona.systemPrompt q) (UpdatePersona.systemPrompt p))
                (default (Persona.modelId q) (UpdatePersona.modelId p))
                (default (Persona.conversationStyle q) (UpdatePersona.conversationStyle p))
                (default (Persona.created q) (UpdatePersona.created p))
                now)
           (PersonaState.personas s))
        (PersonaState.activePersonaId s) (PersonaState.isLoading s) (PersonaState.error s)
  | None => s
  end.

Definition deletePersona (personaId : string) (s : PersonaState.t) : PersonaState.t :=
  PersonaState.mk
    (filter (fun p => Persona.id p <> personaId) (PersonaState.personas s))
    (if decide (PersonaState.activePersonaId s = Some personaId)
     then None else PersonaState.activePersonaId s)
    (PersonaState.isLoading s) (PersonaState.error s).

(** The persona actions, each with the values its reducer reads from the
    environment. *)
Inductive PersonaAction :=
| add_persona (uuid : string) (now1 now2 : Z) (p : AddPersona.t)
| update_persona (now : Z) (p : UpdatePersona.t)
| delete_persona (personaId : string)
| set_active_persona (personaId : string).

Definition personaReducer (a : PersonaAction) (s : PersonaState.t) : PersonaState.t :=
  match a with
  | add_persona uuid now1 now2 p => addPersona uuid now1 now2 p s
  | update_persona now p => updatePersona now p s
  | delete_persona i => deletePersona i s
  | set_active_persona i =>
      PersonaState.mk (PersonaState.personas s) (Some i)
        (PersonaState.isLoading s) (PersonaState.error s)
  end.

(** [personaMiddleware]: run the reducer, then register the persona that an
    add or an update concerns.  The result lists the state after the
    reducer, the commands handed to [send] and the service after them. *)
Definition personaToRegister (a : PersonaAction) (s' : PersonaState.t)
    : option Persona.t :=
  match a with
  | add_persona _ _ _ _ => last (PersonaState.personas s')
  | update_persona _ p =>
      List.find (persona_has_id (UpdatePersona.id p)) (PersonaState.personas s')
  | _ => None
  end.

Definition personaMiddleware (a : PersonaAction)
    (s : PersonaState.t) (ws : WebSocketService.t)
    : PersonaState.t * list Envelope.t * WebSocketService.t :=
  let s' := personaReducer a s in
  match personaToRegister a s' with
  | Some persona =>
      (s', [Envelope.mk "register_persona" (persona_ref persona)],
       (send "register_persona" (persona_ref persona) ws).2)
  | None => (s', [], ws)
  end.

(** ** websocket.ts: subscriptions

    [eventHandlers] is a plain object, created as [{}]: it holds the
    callbacks of an event, in registration order, under the event's name,
    and like every object it inherits the members of [Object.prototype].
    The gmap holds its own properties.  A callback is known by its identity
    (function reference), here a number.  A method that ends in a
    [TypeError] returns [None]. *)

Definition objectPrototypeNames : list string :=
  ["constructor"; "hasOwnProperty"; "isPrototypeOf"; "propertyIsEnumerable";
   "toLocaleString"; "toString"; "valueOf"; "__proto__";
   "__defineGetter__"; "__defineSetter__"; "__lookupGetter__"; "__lookupSetter__"].

(** What [this.eventHandlers[event]] reads: an own list of callbacks, an
    inherited member (truthy, but not an array), or [undefined]. *)
Inductive Slot :=
| own_slot (l : list nat)
| inherited_slot
| no_slot.

Definition slot (event : string) (h : gmap string (list nat)) : Slot :=
  match h !! event with
  | Some l => own_slot l
  | None =>
      if bool_decide (event ∈ objectPrototypeNames) then inherited_slot else no_slot
  end.

(** On an inherited member the initialisation is skipped and [push] is not
    a function. *)
Definition on (event : string) (callback : nat) (h : gmap string (list nat))
    : option (gmap string (list nat)) :=
  match slot event h with
  | own_slot l => Some (<[event := l ++ [callback]]> h)
  | no_slot => Some (<[event := [callback]]> h)
  | inherited_slot => None
  end.

(** [callback = None] is a call without the second argument.  On an
    inherited member [filter] is not a function. *)
Definition off (event : string) (callback : option nat) (h : gmap string (list nat))
    : option (gmap string (list nat)) :=
  match callback with
  | None => Some (delete event h)
  | Some cb =>
      match slot event h with
      | own_slot l => Some (<[event := filter (fun c => c <> cb) l]> h)
      | no_slot => Some h
      | inherited_slot => None
      end
  end.

(** The callbacks [dispatchEvent] invokes, in order.  On an inherited
    member [forEach] is not a function. *)
Definition dispatchEvent (event : string) (h : gmap string (list nat))
    : option (list nat) :=
  match slot event h with
  | own_slot l => Some l
  | no_slot => Some []
  | inherited_slot => None
  end.

(** The envelopes that a step of the page, from [w] to [w'], adds to [calls]. *)
Definition issued (w w' : World.t) : list Envelope.t :=
  drop (length (World.calls w)) (World.calls w').

(** Every service event except [setEnabled(true)] and the resumption of a
    [connect()] that was called earlier and is still waiting for its probe. *)
Definition not_enabling (e : ServiceEvent) : bool :=
  match e with
  | ev_setEnabled true _ _ | ev_connect_resume _ _ => false
  | _ => true
  end.

(** The controls of the page: the buttons and the message box. *)
Definition page_control (e : UiEvent) : bool :=
  match e with
  | click_auto | click_next | click_pause | click_stop | submit _ _ _ _ => true
  | _ => false
  end.

(** ** Sample data used to exercise the statements below *)

Definition ada : Persona.t := Persona.mk "p1" "Ada" "" "You are Ada." "m1" "" 0 0.

Definition store1 : ConversationState.t :=
  createConversation "u0" 10 10
    (CreateConversation.mk (Some "c1") "Demo" ["p1"; "p9"]) initialState.

Definition hello : AddMessage.t := AddMessage.mk "c1" "user" user "hello" None None.

Definition pending : AddMessage.t := AddMessage.mk "c1" "p1" agent "..." None None.

Definition store2 : ConversationState.t :=
  setConversationStatus "c1" generating (Some "p1")
    (addMessage "m2" 30 31 pending (addMessage "m1" 20 21 hello store1)).

Definition finished : Metadata.t := Metadata.mk None None None None (Some false).


Definition branchFromFirst : CreateBranch.t := CreateBranch.mk "c1" "b1" "m1" "Fork".

Definition openService : WebSocketService.t :=
  WebSocketService.mk (Some (WebSocket.mk OPEN [])) 0 true [].

Definition droppedService : WebSocketService.t :=
  WebSocketService.mk (Some (WebSocket.mk CLOSED [])) 2 true [].

Definition world1 : World.t :=
  World.mk store1 [ada] 500 openService [] false None [] [] 1.

Definition world2 : World.t :=
  World.mk store2 [ada] 500 droppedService [] false None [] [] 1.

Definition world3 : World.t :=
  World.mk (setConversationStatus "c1" paused None store2) [ada] 500 openService
    [] false None [] [] 1.


(** Nine euro signs (U+20AC, three bytes each), a four-byte emoji (U+1F600)
    and a no-break space followed by an ideographic space (U+00A0, U+3000). *)
Definition euros : string := "€€€€€€€€€".

Definition grin : string :=
  String (Ascii.ascii_of_nat 240) (String (Ascii.ascii_of_nat 159)
    (String (Ascii.ascii_of_nat 152) (String (Ascii.ascii_of_nat 128) ""))).

Definition wideBlank : string :=
  String (Ascii.ascii_of_nat 194) (String (Ascii.ascii_of_nat 160)
    (String (Ascii.ascii_of_nat 227) (String (Ascii.ascii_of_nat 128)
      (String (Ascii.ascii_of_nat 128) "")))).

(** * Properties *)

(** ** [findIndex] *)

Lemma findIndex_None {A} (p : A -> bool) (l : list A) :
  findIndex p l = None <-> (forall x, x ∈ l -> p x = false).
Proof.
  induction l as [|a l IH]; simpl.
  - split; [intros _ x Hx; inversion Hx | done].
  - destruct (p a) eqn:Hpa.
    + split; [done|]. intros H. specialize (H a (list_elem_of_here _ _)). congruence.
    + destruct (findIndex p l) as [i|] eqn:Hf; simpl.
      * split; [done|]. intros H.
        assert (Some i = None) by (apply IH; intros x Hx; apply H; by right).
        done.
      * split; [|done]. intros _ x Hx.
        apply elem_of_cons in Hx as [->|Hx]; [done|]. by apply IH.
Qed.

Lemma findIndex_Some {A} (p : A -> bool) (l : list A) (i : nat) :
  findIndex p l = Some i ->
  exists x, l = take i l ++ x :: drop (S i) l
            /\ l !! i = Some x /\ p x = true
            /\ (forall y, y ∈ take i l -> p y = false).
Proof.
  revert i. induction l as [|a l IH]; intros i; simpl; [done|].
  destruct (p a) eqn:Hpa.
  - intros [= <-]. exists a. simpl. rewrite drop_0.
    repeat split; try done. intros y Hy. inversion Hy.
  - destruct (findIndex p l) as [j|] eqn:Hf; simpl; [|done].
    intros [= <-]. destruct (IH j eq_refl) as (x & Hl & Hx & Hpx & Hpre).
    exists x. simpl. repeat split; try done.
    + by rewrite <- Hl.
    + intros y Hy. apply elem_of_cons in Hy as [->|Hy]; [done|]. by apply Hpre.
Qed.

Lemma findIndex_is_Some {A} (p : A -> bool) (l : list A) (x : A) :
  x ∈ l -> p x = true -> is_Some (findIndex p l).
Proof.
  intros Hx Hp. destruct (findIndex p l) eqn:Hf; [by eexists|].
  rewrite findIndex_None in Hf. rewrite (Hf x Hx) in Hp. done.
Qed.

(** [findIndex] only looks at the image of the list under the predicate. *)
Lemma findIndex_ext {A B} (p : A -> bool) (q : B -> bool) (l : list A) (k : list B) :
  p <$> l = q <$> k -> findIndex p l = findIndex q k.
Proof.
  revert k. induction l as [|a l IH]; intros [|b k]; simpl; try done.
  intros [= Hab Hlk]. rewrite Hab. by rewrite (IH k Hlk).
Qed.

Lemma findIndex_app_l {A} (p : A -> bool) (l k : list A) (i : nat) :
  findIndex p l = Some i -> findIndex p (l ++ k) = Some i.
Proof.
  revert i. induction l as [|a l IH]; intros i; simpl; [done|].
  destruct (p a); [done|].
  destruct (findIndex p l) as [j|]; simpl; [|done].
  intros [= <-]. by rewrite (IH j eq_refl).
Qed.

Lemma map_insert_same {A B} (f : A -> B) (l : list A) (i : nat) (x y : A) :
  l !! i = Some x -> f y = f x -> f <$> <[i := y]> l = f <$> l.
Proof.
  intros Hx Hf. rewrite list_fmap_insert. rewrite Hf.
  apply list_insert_id. by rewrite list_lookup_fmap, Hx.
Qed.

Lemma string_eqb_true (a b : string) : String.eqb a b = true <-> a = b.
Proof. apply String.eqb_eq. Qed.

Lemma string_eqb_false (a b : string) : String.eqb a b = false <-> a <> b.
Proof. apply String.eqb_neq. Qed.

(** ** Reducers on a conversation that is not in the store *)

Lemma conversationOf_None (cid : string) (s : ConversationState.t) :
  (forall c, c ∈ ConversationState.conversations s -> Conversation.id c <> cid) ->
  findIndex (has_id cid) (ConversationState.conversations s) = None.
Proof.
  intros H. apply findIndex_None. intros c Hc.
  apply string_eqb_false. by apply H.
Qed.

(** C10.  When no conversation of the store carries the payload's
    [conversationId], [addMessage] and [updateMessage] return the store they
    were given: conversations, messages and turn-status entries are all
    unchanged.  The reducers are total, so there is no failure outcome. *)
Theorem unknown_conversation_is_noop (cid : string) (s : ConversationState.t) :
  (forall c, c ∈ ConversationState.conversations s -> Conversation.id c <> cid) ->
  (forall uuid now1 now2 p,
      AddMessage.conversationId p = cid -> addMessage uuid now1 now2 p s = s)
  /\ (forall now p,
      UpdateMessage.conversationId p = cid -> updateMessage now p s = s).
Proof.
  intros H. pose proof (conversationOf_None cid s H) as Hf. split.
  - intros uuid now1 now2 p <-. unfold addMessage. by rewrite Hf.
  - intros now p <-. unfold updateMessage. by rewrite Hf.
Qed.

Lemma unknown_conversation_is_noop_witness :
  addMessage "m9" 40 41 (AddMessage.mk "zz" "user" user "hi" None None) store2 = store2
  /\ updateMessage 40
       (UpdateMessage.mk "m1" "zz" None None (Some "hi") None None None) store2 = store2.
Proof.
  assert (H : forall c, c ∈ ConversationState.conversations store2 ->
                        Conversation.id c <> "zz").
  { intros c Hc. vm_compute in Hc. apply list_elem_of_singleton in Hc. by subst c. }
  destruct (unknown_conversation_is_noop "zz" store2 H) as [Ha Hu].
  split; [by apply Ha | by apply Hu].
Defined.

(** ** [updateMessage] on a message that is not in the conversation *)

(** C1, as the code has it.  When the (conversationId, id) pair of the
    payload selects no stored message, [updateMessage] returns the store
    unchanged: nothing is created or appended.  The same holds for a
    [message_complete] frame, which [handleMessageComplete] turns into one
    [updateMessage] dispatch. *)
Theorem update_of_missing_message_is_noop (s : ConversationState.t) :
  (forall now p,
      (forall ms m, messagesOf (UpdateMessage.conversationId p) s = Some ms ->
                    m ∈ ms -> Message.id m <> UpdateMessage.id p) ->
      updateMessage now p s = s)
  /\ (forall now w,
      (forall ms m,
          messagesOf (UpdateMessage.conversationId (completePayload w)) s = Some ms ->
          m ∈ ms -> Message.id m <> WireMessage.id w) ->
      handleMessageComplete now (Some w) s = s).
Proof.
  assert (Hupd : forall now p,
      (forall ms m, messagesOf (UpdateMessage.conversationId p) s = Some ms ->
                    m ∈ ms -> Message.id m <> UpdateMessage.id p) ->
      updateMessage now p s = s).
  { intros now p H. unfold updateMessage.
    destruct (findIndex _ (ConversationState.conversations s)) as [ci|] eqn:Hci; [|done].
    destruct (ConversationState.conversations s !! ci) as [c|] eqn:Hc; [|done].
    assert (Hms : messagesOf (UpdateMessage.conversationId p) s
                  = Some (Conversation.messages c)).
    { unfold messagesOf, conversationOf. rewrite Hci. simpl. by rewrite Hc. }
    assert (Hnone : findIndex (msg_has_id (UpdateMessage.id p)) (Conversation.messages c)
                    = None).
    { apply findIndex_None. intros m Hm. apply string_eqb_false. by eapply H. }
    by rewrite Hnone. }
  split; [exact Hupd|].
  intros now w H. simpl. apply Hupd. exact H.
Qed.

Lemma update_of_missing_message_is_noop_witness :
  updateMessage 40
    (UpdateMessage.mk "m7" "c1" None None (Some "hi") None None None) store2 = store2
  /\ handleMessageComplete 40
       (Some (WireMessage.mk "m7" (Some "c1") "hi" (Some finished))) store2 = store2.
Proof.
  destruct (update_of_missing_message_is_noop store2) as [Hupd Hcomplete].
  assert (Hfresh : forall ms m, messagesOf "c1" store2 = Some ms ->
                                m ∈ ms -> Message.id m <> "m7").
  { intros ms m Hms Hm. vm_compute in Hms. injection Hms as <-.
    apply elem_of_cons in Hm as [->|Hm]; [done|].
    apply list_elem_of_singleton in Hm as ->. done. }
  split; [apply Hupd | apply Hcomplete]; exact Hfresh.
Defined.

(** C1 as claimed fails: conversation c1 exists and holds no message m7, yet
    after [updateMessage] (and after the [message_complete] frame for the
    same pair) its message list is the one it had; no message with id m7 has
    been appended. *)
Lemma update_does_not_append_if_missing :
  let p := UpdateMessage.mk "m7" "c1" None None (Some "hi") None None (Some (Some finished)) in
  let w := WireMessage.mk "m7" (Some "c1") "hi" (Some finished) in
  (exists ms, messagesOf "c1" store2 = Some ms
              /\ (forall m, m ∈ ms -> Message.id m <> "m7"))
  /\ ~ (exists ms m, messagesOf "c1" store2 = Some ms /\ Message.id m = "m7"
                     /\ messagesOf "c1" (updateMessage 40 p store2) = Some (ms ++ [m]))
  /\ ~ (exists ms m, messagesOf "c1" store2 = Some ms /\ Message.id m = "m7"
                     /\ messagesOf "c1" (handleMessageComplete 40 (Some w) store2)
                        = Some (ms ++ [m])).
Proof.
  intros p w. split; [|split].
  - eexists. split; [vm_compute; reflexivity|].
    intros m Hm. apply elem_of_cons in Hm as [->|Hm]; [done|].
    apply list_elem_of_singleton in Hm as ->. done.
  - intros (ms & m & Hms & _ & Hafter). vm_compute in Hms, Hafter.
    injection Hms as <-. simpl in Hafter. discriminate Hafter.
  - intros (ms & m & Hms & _ & Hafter). vm_compute in Hms, Hafter.
    injection Hms as <-. simpl in Hafter. discriminate Hafter.
Qed.

(** ** [addMessage] on a conversation of the store *)

Lemma conversationOf_Some (cid : string) (s : ConversationState.t) (c : Conversation.t) :
  conversationOf cid s = Some c ->
  exists i, findIndex (has_id cid) (ConversationState.conversations s) = Some i
            /\ ConversationState.conversations s !! i = Some c.
Proof.
  unfold conversationOf. intros H.
  destruct (findIndex _ _) as [i|]; [|done]. by exists i.
Qed.

Lemma messagesOf_Some (cid : string) (s : ConversationState.t) (ms : list Message.t) :
  messagesOf cid s = Some ms ->
  exists i c, findIndex (has_id cid) (ConversationState.conversations s) = Some i
              /\ ConversationState.conversations s !! i = Some c
              /\ Conversation.messages c = ms.
Proof.
  unfold messagesOf. intros H.
  destruct (conversationOf cid s) as [c|] eqn:Hc; [|done].
  apply conversationOf_Some in Hc as (i & Hi & Hc).
  exists i, c. by simplify_eq/=.
Qed.

(** Replacing a conversation by one with the same id does not move any id. *)
Lemma findIndex_has_id_insert (cid : string) (cs : list Conversation.t) (i : nat)
    (c c' : Conversation.t) :
  cs !! i = Some c -> Conversation.id c' = Conversation.id c ->
  findIndex (has_id cid) (<[i := c']> cs) = findIndex (has_id cid) cs.
Proof.
  intros Hc Hid. apply findIndex_ext. apply map_insert_same with (x := c); [done|].
  unfold has_id. by rewrite Hid.
Qed.

Lemma addMessage_conversations uuid now1 now2 p s i c :
  findIndex (has_id (AddMessage.conversationId p)) (ConversationState.conversations s)
    = Some i ->
  ConversationState.conversations s !! i = Some c ->
  ConversationState.conversations (addMessage uuid now1 now2 p s)
  = <[i := Conversation.set_updated now2
             (Conversation.set_messages
                (Conversation.messages c ++ [newMessage uuid now1 p]) c)]>
      (ConversationState.conversations s).
Proof.
  intros Hi Hc. unfold addMessage. rewrite Hi. unfold update_at. simpl.
  destruct (AddMessage.senderType p); simpl; by rewrite Hc.
Qed.

(** C7.  On a conversation that is in the store, [addMessage] appends at the
    end of its messages one message built from the payload, whose id is the
    newly generated uuid and whose timestamp is the clock reading; when the
    sender is the user, the turn-status entry of the conversation becomes
    idle with [lastMessageId] the new id. *)
Theorem addMessage_appends_and_idles (uuid : string) (now1 now2 : Z)
    (p : AddMessage.t) (s : ConversationState.t) (ms : list Message.t) :
  messagesOf (AddMessage.conversationId p) s = Some ms ->
  exists m,
    messagesOf (AddMessage.conversationId p) (addMessage uuid now1 now2 p s)
      = Some (ms ++ [m])
    /\ Message.id m = uuid
    /\ Message.timestamp m = now1
    /\ Message.conversationId m = AddMessage.conversationId p
    /\ Message.senderId m = AddMessage.senderId p
    /\ Message.senderType m = AddMessage.senderType p
    /\ Message.content m = AddMessage.content p
    /\ (AddMessage.senderType p = user ->
        ConversationState.conversationStatus (addMessage uuid now1 now2 p s)
          !! AddMessage.conversationId p
        = Some (TurnStatus.mk idle None (Some uuid))).
Proof.
  intros Hms. apply messagesOf_Some in Hms as (i & c & Hi & Hc & <-).
  exists (newMessage uuid now1 p). split; [|repeat split].
  - unfold messagesOf, conversationOf.
    rewrite (addMessage_conversations _ _ _ _ _ _ _ Hi Hc).
    rewrite (findIndex_has_id_insert _ _ _ c) by done. rewrite Hi. simpl.
    rewrite list_lookup_insert_eq by (by eapply lookup_lt_Some). done.
  - intros Hu. unfold addMessage. rewrite Hi. simpl. rewrite Hu. simpl.
    by rewrite lookup_insert_eq.
Qed.

Lemma addMessage_appends_and_idles_witness :
  exists m,
    messagesOf "c1" (addMessage "m1" 20 21 hello store1) = Some ([] ++ [m])
    /\ Message.id m = "m1"
    /\ Message.timestamp m = 20%Z
    /\ Message.conversationId m = "c1"
    /\ Message.senderId m = "user"
    /\ Message.senderType m = user
    /\ Message.content m = "hello"
    /\ (user = user ->
        ConversationState.conversationStatus (addMessage "m1" 20 21 hello store1) !! "c1"
        = Some (TurnStatus.mk idle None (Some "m1"))).
Proof.
  apply (addMessage_appends_and_idles "m1" 20 21 hello store1 []).
  vm_compute. reflexivity.
Defined.

(** ** [updateMessage] on a stored message: the turn status *)

Lemma messageOf_Some (cid mid : string) (s : ConversationState.t) (prev : Message.t) :
  messageOf cid mid s = Some prev ->
  exists ci c mi,
    findIndex (has_id cid) (ConversationState.conversations s) = Some ci
    /\ ConversationState.conversations s !! ci = Some c
    /\ findIndex (msg_has_id mid) (Conversation.messages c) = Some mi
    /\ Conversation.messages c !! mi = Some prev.
Proof.
  unfold messageOf. intros H.
  destruct (messagesOf cid s) as [ms|] eqn:Hms; [|done]. simpl in H.
  apply messagesOf_Some in Hms as (ci & c & Hci & Hc & <-).
  destruct (findIndex (msg_has_id mid) (Conversation.messages c)) as [mi|] eqn:Hmi; [|done].
  by exists ci, c, mi.
Qed.

Lemma isCompleteMessage_spec (prevContent : string) (newContent : option string) :
  isCompleteMessage prevContent newContent = true <->
  exists n, newContent = Some n /\ n <> "" /\ n <> prevContent
            /\ (prevContent = placeholder
                \/ js_length prevContent + 20 < js_length n).
Proof.
  unfold isCompleteMessage. destruct newContent as [n|].
  - rewrite !andb_true_iff, orb_true_iff, !negb_true_iff, !string_eqb_false,
      string_eqb_true, Nat.ltb_lt.
    split.
    + intros [[H1 H2] H3]. exists n. naive_solver.
    + intros (n' & [= <-] & H1 & H2 & H3). naive_solver.
  - split; [done|]. by intros (n & ? & _).
Qed.

Lemma marksFinished_spec (p : UpdateMessage.t) :
  marksFinished p = true <->
  exists md, UpdateMessage.metadata p = Some (Some md)
             /\ Metadata.isGenerating md = Some false.
Proof.
  unfold marksFinished. destruct (UpdateMessage.metadata p) as [[md|]|].
  - destruct (Metadata.isGenerating md) as [[|]|] eqn:Hg.
    + split; [done|]. intros (md' & [= <-] & H). congruence.
    + split; [|done]. intros _. by exists md.
    + split; [done|]. intros (md' & [= <-] & H). congruence.
  - split; [done|]. by intros (md & ? & _).
  - split; [done|]. by intros (md & ? & _).
Qed.

(** C4, as the code has it.  For an update of a stored message, call it a
    completion when the payload carries a non-empty content that differs
    from the stored one and either the stored content is the placeholder or
    the new content is more than 20 code units longer; call the payload
    finished when its metadata has [isGenerating] equal to [false].  If both
    hold, the turn-status entry of the conversation is overwritten with idle
    and [lastMessageId] the message id; otherwise the turn-status map is the
    one before the update. *)
Theorem updateMessage_turn_status (now : Z) (p : UpdateMessage.t)
    (s : ConversationState.t) (prev : Message.t) :
  messageOf (UpdateMessage.conversationId p) (UpdateMessage.id p) s = Some prev ->
  let completion :=
    exists n, UpdateMessage.content p = Some n /\ n <> "" /\ n <> Message.content prev
              /\ (Message.content prev = placeholder
                  \/ js_length (Message.content prev) + 20 < js_length n) in
  let finished :=
    exists md, UpdateMessage.metadata p = Some (Some md)
               /\ Metadata.isGenerating md = Some false in
  (completion /\ finished ->
   ConversationState.conversationStatus (updateMessage now p s)
   = <[UpdateMessage.conversationId p :=
         TurnStatus.mk idle None (Some (UpdateMessage.id p))]>
       (ConversationState.conversationStatus s))
  /\ (~ (completion /\ finished) ->
      ConversationState.conversationStatus (updateMessage now p s)
      = ConversationState.conversationStatus s).
Proof.
  intros Hprev completion finished.
  apply messageOf_Some in Hprev as (ci & c & mi & Hci & Hc & Hmi & Hm).
  unfold updateMessage. rewrite Hci, Hc, Hmi, Hm.
  destruct (isCompleteMessage (Message.content prev) (UpdateMessage.content p)
            && marksFinished p) eqn:Hb.
  - split; [done|]. intros Hn. exfalso. apply Hn.
    apply andb_true_iff in Hb as [H1 H2].
    split; [by apply isCompleteMessage_spec | by apply marksFinished_spec].
  - split; [|done]. intros [H1 H2].
    apply isCompleteMessage_spec in H1. apply marksFinished_spec in H2.
    rewrite H1, H2 in Hb. done.
Qed.

Lemma updateMessage_turn_status_witness :
  let p := UpdateMessage.mk "m2" "c1" None None (Some "Hi there") None None
             (Some (Some finished)) in
  ConversationState.conversationStatus (updateMessage 40 p store2)
  = <["c1" := TurnStatus.mk idle None (Some "m2")]>
      (ConversationState.conversationStatus store2).
Proof.
  intros p.
  apply (proj1 (updateMessage_turn_status 40 p store2
                  (newMessage "m2" 30 pending) eq_refl)).
  split.
  - exists "Hi there". repeat split; [done|done|by left].
  - exists finished. done.
Defined.

(** C4 as claimed fails.  Message m2 of conversation c1 holds the
    placeholder and the conversation is generating.  An update whose content
    is the empty string and whose metadata says [isGenerating: false]
    replaces the content (prior content was the placeholder, content
    changed, generation marked finished), yet the turn status stays
    generating and [lastMessageId] is not m2. *)
Lemma empty_completion_leaves_status :
  let p := UpdateMessage.mk "m2" "c1" None None (Some "") None None
             (Some (Some finished)) in
  Message.content <$> messageOf "c1" "m2" store2 = Some placeholder
  /\ Message.content <$> messageOf "c1" "m2" (updateMessage 40 p store2) = Some ""
  /\ marksFinished p = true
  /\ statusOf "c1" store2 = generating
  /\ statusOf "c1" (updateMessage 40 p store2) = generating
  /\ lastMessageIdOf "c1" (updateMessage 40 p store2) <> Some "m2".
Proof.
  intros p. repeat split; try (vm_compute; reflexivity).
  vm_compute. discriminate.
Qed.

(** [js_length] on content outside ASCII: nine euro signs are nine code
    units on twenty-seven bytes, an emoji is a surrogate pair.  An update of
    the five-letter message m1 to the nine euro signs is therefore not a
    completion, and the conversation stays generating. *)
Lemma js_length_counts_code_units :
  js_length euros = 9 /\ String.length euros = 27 /\ js_length grin = 2
  /\ statusOf "c1"
       (updateMessage 40
          (UpdateMessage.mk "m1" "c1" None None (Some euros) None None
             (Some (Some finished))) store2) = generating.
Proof. repeat split; vm_compute; reflexivity. Qed.

(** ** [createBranch] *)

(** C8.  When the store has a conversation with id [parentId] holding a
    message with id [startFromMessageId], [createBranch] builds a
    conversation with id [branchId] whose messages are the parent's messages
    up to and including the first one with that id, whose participants are
    the parent's and whose [parentId] is the parent's id; it is the last
    element of the conversation list, and the parent, still selected by its
    id, maps [branchId] to it in its [branches]. *)
Theorem createBranch_copies_prefix (now1 now2 : Z) (p : CreateBranch.t)
    (s : ConversationState.t) (parent : Conversation.t) (m : Message.t) :
  conversationOf (CreateBranch.parentId p) s = Some parent ->
  m ∈ Conversation.messages parent ->
  Message.id m = CreateBranch.startFromMessageId p ->
  exists branch parent' bm pre m0 post,
    Conversation.messages parent = pre ++ m0 :: post
    /\ Message.id m0 = CreateBranch.startFromMessageId p
    /\ (forall x, x ∈ pre -> Message.id x <> CreateBranch.startFromMessageId p)
    /\ Conversation.id branch = CreateBranch.branchId p
    /\ Conversation.title branch = CreateBranch.title p
    /\ Conversation.messages branch = pre ++ [m0]
    /\ Conversation.participants branch = Conversation.participants parent
    /\ Conversation.parentId branch = Some (CreateBranch.parentId p)
    /\ last (ConversationState.conversations (createBranch now1 now2 p s)) = Some branch
    /\ length (ConversationState.conversations (createBranch now1 now2 p s))
       = S (length (ConversationState.conversations s))
    /\ conversationOf (CreateBranch.parentId p) (createBranch now1 now2 p s) = Some parent'
    /\ Conversation.branches parent' = Some bm
    /\ bm !! CreateBranch.branchId p = Some branch.
Proof.
  intros Hparent Hm Hid.
  apply conversationOf_Some in Hparent as (pi & Hpi & Hc).
  destruct (findIndex_is_Some (msg_has_id (CreateBranch.startFromMessageId p))
              (Conversation.messages parent) m Hm) as [mi Hmi].
  { unfold msg_has_id. by apply string_eqb_true. }
  destruct (findIndex_Some _ _ _ Hmi) as (m0 & Hsplit & Hm0 & Hp0 & Hpre).
  set (branch :=
         Conversation.mk (CreateBranch.branchId p) (CreateBranch.title p) now1 now2
           (Conversation.participants parent)
           (take (S mi) (Conversation.messages parent)) None
           (Some (CreateBranch.parentId p)) true).
  set (bm := <[CreateBranch.branchId p := branch]>
               (default ∅ (Conversation.branches parent))).
  set (parent' := Conversation.set_branches (Some bm) parent).
  assert (Hs : ConversationState.conversations (createBranch now1 now2 p s)
               = <[pi := parent']> (ConversationState.conversations s) ++ [branch]).
  { unfold createBranch. by rewrite Hpi, Hc, Hmi. }
  rewrite Hs.
  exists branch, parent', bm, (take mi (Conversation.messages parent)), m0,
    (drop (S mi) (Conversation.messages parent)).
  split; [exact Hsplit|]. split; [by apply string_eqb_true in Hp0|].
  split. { intros x Hx. apply string_eqb_false. by apply Hpre. }
  do 2 (split; [reflexivity|]).
  split. { simpl. by apply take_S_r. }
  do 2 (split; [reflexivity|]).
  split. { apply last_snoc. }
  split. { rewrite length_app, length_insert. simpl. lia. }
  split.
  { unfold conversationOf. rewrite Hs.
    assert (Hf : findIndex (has_id (CreateBranch.parentId p))
                   (<[pi := parent']> (ConversationState.conversations s)) = Some pi).
    { rewrite (findIndex_has_id_insert _ _ _ parent) by done. exact Hpi. }
    rewrite (findIndex_app_l _ _ _ _ Hf). simpl.
    rewrite lookup_app_l by (rewrite length_insert; by eapply lookup_lt_Some).
    apply list_lookup_insert_eq. by eapply lookup_lt_Some. }
  split; [reflexivity|]. apply lookup_insert_eq.
Qed.

Lemma createBranch_copies_prefix_witness :
  exists branch parent' bm pre m0 post,
    [newMessage "m1" 20 hello; newMessage "m2" 30 pending] = pre ++ m0 :: post
    /\ Message.id m0 = "m1"
    /\ (forall x, x ∈ pre -> Message.id x <> "m1")
    /\ Conversation.id branch = "b1"
    /\ Conversation.title branch = "Fork"
    /\ Conversation.messages branch = pre ++ [m0]
    /\ Conversation.participants branch = ["p1"; "p9"]
    /\ Conversation.parentId branch = Some "c1"
    /\ last (ConversationState.conversations (createBranch 50 51 branchFromFirst store2))
       = Some branch
    /\ length (ConversationState.conversations (createBranch 50 51 branchFromFirst store2))
       = 2
    /\ conversationOf "c1" (createBranch 50 51 branchFromFirst store2) = Some parent'
    /\ Conversation.branches parent' = Some bm
    /\ bm !! "b1" = Some branch.
Proof.
  exact (createBranch_copies_prefix 50 51 branchFromFirst store2
           (Conversation.mk "c1" "Demo" 10 31 ["p1"; "p9"]
              [newMessage "m1" 20 hello; newMessage "m2" 30 pending] None None true)
           (newMessage "m1" 20 hello) eq_refl (list_elem_of_here _ _) eq_refl).
Defined.

(** ** Runs of [addMessage] *)

Lemma findIndex_has_id_ids (cid : string) (cs cs' : list Conversation.t) :
  Conversation.id <$> cs' = Conversation.id <$> cs ->
  findIndex (has_id cid) cs' = findIndex (has_id cid) cs.
Proof.
  intros H. apply findIndex_ext.
  change (has_id cid) with ((fun i => String.eqb i cid) ∘ Conversation.id).
  by rewrite !(list_fmap_compose Conversation.id), H.
Qed.





(** ** [send] *)

Lemma send_open (type : string) (data : Data) (ws : WebSocketService.t)
    (k : WebSocket.t) :
  WebSocketService.socket ws = Some k -> WebSocket.readyState k = OPEN ->
  send type data ws
  = (true,
     WebSocketService.mk
       (Some (WebSocket.mk OPEN (WebSocket.sent k ++ [Envelope.mk type data])))
       (WebSocketService.reconnectAttempts ws) (WebSocketService.isEnabled ws)
       (WebSocketService.timers ws)).
Proof.
  intros Hk Hopen. unfold send. rewrite Hk.
  rewrite bool_decide_eq_true_2 by done. by rewrite Hopen.
Qed.

(** C3.  Without a socket, or with a socket that is not OPEN, [send] returns
    [false] and leaves the service as it was: no frame is handed to a socket
    and nothing is recorded from which a later step could deliver one, so any
    later run of the service is the run it would have had without the call.
    With an OPEN socket, [send] hands exactly the envelope [{type, data}] to
    it, after the frames already sent, changes nothing else and returns
    [true].  [send] is total: there is no failure outcome. *)
Theorem send_contract (type : string) (data : Data) (ws : WebSocketService.t) :
  ((WebSocketService.socket ws = None
    \/ exists k, WebSocketService.socket ws = Some k /\ WebSocket.readyState k <> OPEN) ->
   send type data ws = (false, ws)
   /\ forall es, service_run es (send type data ws).2 = service_run es ws)
  /\ (forall k,
        WebSocketService.socket ws = Some k -> WebSocket.readyState k = OPEN ->
        send type data ws
        = (true,
           WebSocketService.mk
             (Some (WebSocket.mk OPEN (WebSocket.sent k ++ [Envelope.mk type data])))
             (WebSocketService.reconnectAttempts ws) (WebSocketService.isEnabled ws)
             (WebSocketService.timers ws))).
Proof.
  split.
  - intros H.
    assert (Hs : send type data ws = (false, ws)).
    { unfold send. destruct H as [->|(k & -> & Hk)]; [done|].
      by rewrite bool_decide_eq_false_2. }
    split; [done|]. intros es. by rewrite Hs.
  - intros k. apply send_open.
Qed.

Lemma send_contract_witness :
  (send "stop_generation" (conversation_ref "c1") droppedService = (false, droppedService)
   /\ forall es,
        service_run es (send "stop_generation" (conversation_ref "c1") droppedService).2
        = service_run es droppedService)
  /\ send "stop_generation" (conversation_ref "c1") openService
     = (true,
        WebSocketService.mk
          (Some (WebSocket.mk OPEN
                   ([] ++ [Envelope.mk "stop_generation" (conversation_ref "c1")])))
          0 true []).
Proof.
  split.
  - apply (proj1 (send_contract "stop_generation" (conversation_ref "c1") droppedService)).
    right. eexists. split; [reflexivity|]. simpl. discriminate.
  - apply (proj2 (send_contract "stop_generation" (conversation_ref "c1") openService)
             (WebSocket.mk OPEN [])); reflexivity.
Defined.

(** ** Reconnection *)

(** The first five delays; the 30 s cap is not reached by them. *)
Lemma backoff_table :
  (backoff 1 == 1000 /\ backoff 2 == 1500 /\ backoff 3 == 2250
   /\ backoff 4 == 3375 /\ backoff 5 == 50625 # 10)%Q.
Proof. repeat split; vm_compute; reflexivity. Qed.

Lemma attemptReconnect_attempts (ws : WebSocketService.t) :
  WebSocketService.reconnectAttempts (attemptReconnect ws)
  = S (WebSocketService.reconnectAttempts ws).
Proof. reflexivity. Qed.

Lemma connect_resume_attempts (a t : bool) (ws : WebSocketService.t) :
  t = false ->
  WebSocketService.reconnectAttempts (connect_resume a t ws)
  = WebSocketService.reconnectAttempts ws.
Proof. intros ->. unfold connect_resume. by destruct a. Qed.

Lemma connect_attempts (a t : bool) (ws : WebSocketService.t) :
  t = false ->
  WebSocketService.reconnectAttempts (connect a t ws)
  = WebSocketService.reconnectAttempts ws.
Proof.
  intros ->. unfold connect, connect_resume.
  destruct (WebSocketService.isEnabled ws), a; reflexivity.
Qed.

Lemma service_step_bound (e : ServiceEvent) (ws : WebSocketService.t) :
  ctor_ok e = true ->
  WebSocketService.reconnectAttempts ws <= maxReconnectAttempts ->
  WebSocketService.reconnectAttempts (service_step e ws) <= maxReconnectAttempts.
Proof.
  intros Hok Hle. destruct e as [|wasClean|k a t|a t|a t|b a t| |ty d]; simpl in *.
  - unfold maxReconnectAttempts. lia.
  - unfold onclose.
    destruct (negb wasClean); simpl; [|done].
    destruct (_ <? _)%nat eqn:Hlt; simpl; [|done].
    destruct (WebSocketService.isEnabled ws); [|done].
    rewrite attemptReconnect_attempts. apply Nat.ltb_lt in Hlt. lia.
  - apply negb_true_iff in Hok. unfold reconnectTimer.
    destruct (WebSocketService.timers ws !! k); [|done].
    destruct (negb _ && _); [|done]. by rewrite connect_attempts.
  - apply negb_true_iff in Hok. by rewrite connect_attempts.
  - apply negb_true_iff in Hok. by rewrite connect_resume_attempts.
  - apply negb_true_iff in Hok. unfold setEnabled.
    destruct b; simpl.
    + destruct (WebSocketService.socket ws); [done|]. by rewrite connect_attempts.
    + destruct ws as [[k|] n en ts]; simpl in *; done.
  - unfold disconnect. by destruct (WebSocketService.socket ws).
  - unfold send. destruct (WebSocketService.socket ws) as [k|]; [|done].
    by destruct (bool_decide _).
Qed.

(** C2.  [onclose] arms a reconnect exactly when the close was unclean, the
    service is enabled and the counter is below 5; it then increments the
    counter to some n <= 5 and arms one timer whose delay is
    min(1000 * 1.5^(n-1), 30000) ms; otherwise it changes nothing.  [onopen]
    sets the counter to 0.  Along any sequence of service events in which
    the [WebSocket] constructor does not throw, a counter that is at most 5
    stays at most 5. *)
Theorem reconnect_policy :
  (forall wasClean ws,
      (wasClean = false /\ WebSocketService.isEnabled ws = true
       /\ WebSocketService.reconnectAttempts ws < 5 ->
       let n := S (WebSocketService.reconnectAttempts ws) in
       WebSocketService.reconnectAttempts (onclose wasClean ws) = n
       /\ n <= 5
       /\ exists d,
           WebSocketService.timers (onclose wasClean ws)
           = WebSocketService.timers ws ++ [d]
           /\ (d == Qmin (1000 * Qpower (3 # 2) (Z.of_nat n - 1)) 30000)%Q)
      /\ (~ (wasClean = false /\ WebSocketService.isEnabled ws = true
             /\ WebSocketService.reconnectAttempts ws < 5) ->
          onclose wasClean ws = ws))
  /\ (forall ws, WebSocketService.reconnectAttempts (onopen ws) = 0)
  /\ (forall es ws,
        Forall (fun e => ctor_ok e = true) es ->
        WebSocketService.reconnectAttempts ws <= 5 ->
        WebSocketService.reconnectAttempts (service_run es ws) <= 5).
Proof.
  split; [|split].
  - intros wasClean ws. unfold onclose, maxReconnectAttempts. split.
    + intros (-> & -> & Hlt). simpl.
      rewrite (proj2 (Nat.ltb_lt _ _) Hlt). simpl.
      split; [done|]. split; [lia|].
      eexists. split; [reflexivity|]. unfold backoff, reconnectDelay. reflexivity.
    + intros Hn. destruct wasClean; simpl; [done|].
      destruct (_ <? _)%nat eqn:Hlt; simpl; [|done].
      destruct (WebSocketService.isEnabled ws) eqn:He; [|done].
      exfalso. apply Hn. apply Nat.ltb_lt in Hlt. done.
  - reflexivity.
  - intros es. induction es as [|e es IH]; intros ws Hok Hle; [done|].
    apply Forall_cons in Hok as [He Hes]. simpl. apply IH; [done|].
    by apply service_step_bound.
Qed.

Lemma reconnect_policy_witness :
  (WebSocketService.reconnectAttempts (onclose false droppedService) = 3
   /\ 3 <= 5
   /\ exists d,
       WebSocketService.timers (onclose false droppedService) = [] ++ [d]
       /\ (d == Qmin (1000 * Qpower (3 # 2) (Z.of_nat 3 - 1)) 30000)%Q)
  /\ WebSocketService.reconnectAttempts
       (service_run [ev_close false; ev_close false; ev_close false; ev_close false]
          droppedService) <= 5.
Proof.
  destruct reconnect_policy as (Hclose & _ & Hrun). split.
  - apply (proj1 (Hclose false droppedService)). repeat split. simpl. lia.
  - apply Hrun; [repeat constructor|simpl; lia].
Defined.

(** ** Auto-mode: registration before the first turn request *)

Section ControlsFacts.

Variable conversationId : string.
Variable participants : list string.

Lemma wsSend_calls ty d w :
  World.calls (wsSend ty d w) = World.calls w ++ [Envelope.mk ty d].
Proof. reflexivity. Qed.

Lemma clearAutoModeInterval_calls w :
  World.calls (clearAutoModeInterval w) = World.calls w.
Proof. unfold clearAutoModeInterval. by destruct (World.autoModeRef w). Qed.

Lemma clearAutoModeInterval_service w :
  World.service (clearAutoModeInterval w) = World.service w.
Proof. unfold clearAutoModeInterval. by destruct (World.autoModeRef w). Qed.

Lemma clearAutoModeInterval_timeouts w :
  World.timeouts (clearAutoModeInterval w) = World.timeouts w.
Proof. unfold clearAutoModeInterval. by destruct (World.autoModeRef w). Qed.

Lemma resetConversation_calls r w :
  World.calls (resetConversation conversationId r w) = World.calls w.
Proof.
  unfold resetConversation. destruct (Render.isAutoMode r); simpl; [|done].
  by rewrite clearAutoModeInterval_calls.
Qed.

Lemma resetConversation_service r w :
  World.service (resetConversation conversationId r w) = World.service w.
Proof.
  unfold resetConversation. destruct (Render.isAutoMode r); simpl; [|done].
  by rewrite clearAutoModeInterval_service.
Qed.

Lemma resetConversation_timeouts r w :
  World.timeouts (resetConversation conversationId r w) = World.timeouts w.
Proof.
  unfold resetConversation. destruct (Render.isAutoMode r); simpl; [|done].
  by rewrite clearAutoModeInterval_timeouts.
Qed.

(** The [forEach] of [startAutoMode]: what it adds to the calls, what it
    hands to the transport, and that it arms nothing. *)
Lemma registerParticipant_fold r (l : list string) w :
  World.calls (foldl (registerParticipant r) w l)
  = World.calls w
    ++ ((fun persona => Envelope.mk "register_persona" (persona_ref persona))
          <$> omap (findPersona (Render.personas r)) l)
  /\ World.service (foldl (registerParticipant r) w l)
     = sendAll ((fun persona => Envelope.mk "register_persona" (persona_ref persona))
                  <$> omap (findPersona (Render.personas r)) l) (World.service w)
  /\ World.timeouts (foldl (registerParticipant r) w l) = World.timeouts w.
Proof.
  revert w. induction l as [|pid l IH]; intros w; simpl.
  - by rewrite app_nil_r.
  - destruct (IH (registerParticipant r w pid)) as (Hc & Hs & Ht).
    rewrite Hc, Hs, Ht. unfold registerParticipant.
    destruct (findPersona (Render.personas r) pid) as [persona|]; simpl; [|done].
    by rewrite <- app_assoc.
Qed.

Lemma triggerNextTurn_prefix r w :
  World.calls w `prefix_of` World.calls (triggerNextTurn conversationId r w).
Proof.
  unfold triggerNextTurn. destruct (_ || _); [done|].
  rewrite wsSend_calls. by apply prefix_app_r.
Qed.

Lemma startAutoMode_calls r w :
  World.calls (startAutoMode conversationId r w) = World.calls w ++ registrations r.
Proof.
  unfold startAutoMode. simpl.
  rewrite (proj1 (registerParticipant_fold r _ _)). simpl.
  destruct (_ || _); [|done]. by rewrite resetConversation_calls.
Qed.

Lemma ui_step_prefix e w :
  World.calls w `prefix_of` World.calls (ui_step conversationId participants e w).
Proof.
  unfold ui_step. set (r := render conversationId participants w).
  destruct e as [| | | |message uuid now1 now2|k|h|now f|e'].
  - destruct (Render.isStopped r); [done|].
    destruct (Render.isAutoMode r).
    + unfold stopAutoMode. by rewrite clearAutoModeInterval_calls.
    + rewrite startAutoMode_calls. by apply prefix_app_r.
  - destruct (_ || _); [done|]. apply triggerNextTurn_prefix.
  - destruct (Render.isStopped r); [done|]. unfold handlePause.
    destruct (Render.isPaused r).
    + destruct (Render.isAutoMode r); [|done].
      rewrite startAutoMode_calls. by apply prefix_app_r.
    + destruct (Render.isAutoMode r); [|done]. by rewrite clearAutoModeInterval_calls.
  - destruct (Render.isStopped r); [done|]. unfold handleStop.
    rewrite wsSend_calls. apply prefix_app_r.
    destruct (Render.isAutoMode r); simpl; [|done].
    by rewrite clearAutoModeInterval_calls.
  - destruct (Render.isStopped r); [done|]. unfold handleSendMessage.
    destruct (is_blank message); [done|]. by destruct (Render.isAutoMode r).
  - destruct (World.timeouts w !! k) as [[r0|r0]|]; [| |done].
    + apply (triggerNextTurn_prefix r0 (World.set_timeouts _ w)).
    + unfold autoStart. simpl. destruct (negb _); [|done].
      apply (triggerNextTurn_prefix r0 (World.set_timeouts _ w)).
  - destruct (List.find _ _) as [[h0 r0]|]; [|done]. unfold autoTick.
    destruct (Render.status r0); try done. apply triggerNextTurn_prefix.
  - done.
  - done.
Qed.

Lemma ui_run_prefix es w :
  World.calls w `prefix_of` World.calls (ui_run conversationId participants es w).
Proof.
  revert w. induction es as [|e es IH]; intros w; simpl; [done|].
  etrans; [apply ui_step_prefix | apply IH].
Qed.

Lemma sendAll_open (es : list Envelope.t) (ws : WebSocketService.t) (k : WebSocket.t) :
  WebSocketService.socket ws = Some k -> WebSocket.readyState k = OPEN ->
  WebSocketService.socket (sendAll es ws)
  = Some (WebSocket.mk OPEN (WebSocket.sent k ++ es)).
Proof.
  revert ws k. induction es as [|e es IH]; intros ws k Hk Hopen.
  - simpl. rewrite app_nil_r, Hk. destruct k; simpl in *; by subst.
  - change (sendAll (e :: es) ws)
      with (sendAll es (send (Envelope.type e) (Envelope.data e) ws).2).
    rewrite (send_open (Envelope.type e) (Envelope.data e) ws k Hk Hopen).
    simpl. erewrite IH; [|reflexivity|reflexivity]. simpl.
    rewrite <- app_assoc. by destruct e.
Qed.

(** C6, as the code has it.  [startAutoMode] issues, through [send] and in
    list order, exactly one [register_persona] command for each entry of the
    participant list that resolves to a persona of the persona list, and
    none for the other entries; it issues nothing else, and arms the
    callback that makes the first turn request.  Whatever happens
    afterwards, these commands stay ahead of every later call, so they come
    before the first [multi_agent_next_turn] of the cycle.  With an OPEN
    socket the same commands are the frames added to the wire. *)
Theorem startAutoMode_registers_first (r : Render.t) (w : World.t) :
  World.calls (startAutoMode conversationId r w) = World.calls w ++ registrations r
  /\ (forall e, e ∈ registrations r ->
        Envelope.type e = "register_persona"
        /\ exists pid persona,
            pid ∈ Render.participants r /\ persona ∈ Render.personas r
            /\ Persona.id persona = pid /\ Envelope.data e = persona_ref persona)
  /\ length (registrations r)
     = length (filter (fun pid => is_Some (findPersona (Render.personas r) pid))
                 (Render.participants r))
  /\ (exists ts, World.timeouts (startAutoMode conversationId r w)
                 = ts ++ [after_start r])
  /\ World.service (startAutoMode conversationId r w)
     = sendAll (registrations r) (World.service w)
  /\ (forall k, WebSocketService.socket (World.service w) = Some k ->
                WebSocket.readyState k = OPEN ->
                WebSocketService.socket (World.service (startAutoMode conversationId r w))
                = Some (WebSocket.mk OPEN (WebSocket.sent k ++ registrations r)))
  /\ (forall es, exists later,
        World.calls (ui_run conversationId participants es
                       (startAutoMode conversationId r w))
        = World.calls w ++ registrations r ++ later).
Proof.
  assert (Hsvc : World.service (startAutoMode conversationId r w)
                 = sendAll (registrations r) (World.service w)).
  { unfold startAutoMode. simpl.
    rewrite (proj1 (proj2 (registerParticipant_fold r _ _))). simpl.
    destruct (_ || _); [|done]. by rewrite resetConversation_service. }
  split; [apply startAutoMode_calls|]. split; [|split; [|split; [|split; [|split]]]].
  - intros e He. unfold registrations in He.
    apply list_elem_of_fmap in He as (persona & -> & Hp).
    apply list_elem_of_omap in Hp as (pid & Hpid & Hfind).
    split; [done|]. exists pid, persona. unfold findPersona in Hfind.
    apply find_some in Hfind as [Hin Heq].
    repeat split; [done|by apply list_elem_of_In|by apply string_eqb_true in Heq].
  - unfold registrations. rewrite length_fmap.
    induction (Render.participants r) as [|pid l IH]; [done|]. simpl.
    rewrite filter_cons.
    destruct (findPersona (Render.personas r) pid) as [persona|] eqn:Hf.
    + rewrite decide_True by (by eexists). simpl. f_equal. exact IH.
    + rewrite decide_False by (by intros [? ?]). exact IH.
  - unfold startAutoMode. simpl. eexists. reflexivity.
  - exact Hsvc.
  - intros k Hk Hopen. rewrite Hsvc. by apply sendAll_open.
  - intros es.
    destruct (ui_run_prefix es (startAutoMode conversationId r w)) as [later Hl].
    exists later. rewrite Hl, startAutoMode_calls. by rewrite <- app_assoc.
Qed.

End ControlsFacts.

Lemma startAutoMode_registers_first_witness :
  World.calls (ui_step "c1" ["p1"; "p9"] click_auto world1)
  = [Envelope.mk "register_persona" (persona_ref ada)]
  /\ WebSocketService.socket
       (World.service (ui_step "c1" ["p1"; "p9"] click_auto world1))
     = Some (WebSocket.mk OPEN [Envelope.mk "register_persona" (persona_ref ada)]).
Proof.
  destruct (startAutoMode_registers_first "c1" ["p1"; "p9"]
              (render "c1" ["p1"; "p9"] world1) world1)
    as (Hcalls & _ & _ & _ & _ & Hwire & _).
  split; [exact Hcalls|].
  exact (Hwire (WebSocket.mk OPEN []) eq_refl eq_refl).
Defined.

(** C6 as claimed fails.  Conversation c1 lists participants p1 and p9, and
    the persona list holds only p1.  With the socket open, starting
    auto-mode issues a single command, the registration of p1; no command
    registers participant p9, neither in that step nor when the armed
    callback then makes the first turn request. *)
Lemma unresolved_participant_is_not_registered :
  let w1 := ui_step "c1" ["p1"; "p9"] click_auto world1 in
  let w2 := ui_step "c1" ["p1"; "p9"] (fire_timeout 0) w1 in
  "p9" ∈ ["p1"; "p9"]
  /\ isOpen (World.service world1) = true
  /\ World.isAutoMode w1 = true
  /\ Envelope.type <$> World.calls w2 = ["register_persona"; "multi_agent_next_turn"]
  /\ ~ (exists e persona,
          e ∈ World.calls w2 /\ Envelope.data e = persona_ref persona
          /\ Persona.id persona = "p9").
Proof.
  intros w1 w2. split; [by right; left|].
  do 3 (split; [vm_compute; reflexivity|]).
  intros (e & persona & He & Hd & Hid). vm_compute in He.
  apply elem_of_cons in He as [->|He].
  - simpl in Hd. injection Hd as <-. discriminate Hid.
  - apply list_elem_of_singleton in He as ->. discriminate Hd.
Qed.

(** ** Turn status: paused followed by generating *)

(** C5 does not hold of the code.  The conversation is idle; the user starts
    auto-mode and pauses before the 500 ms start timer fires.  The timer's
    callback was created by the render in which the status was idle, so its
    guard passes, and its single dispatch takes the stored status from paused
    to generating. *)
Lemma stale_start_timer_leaves_paused :
  let w1 := ui_run "c1" ["p1"; "p9"] [click_auto; click_pause] world1 in
  let w2 := ui_step "c1" ["p1"; "p9"] (fire_timeout 0) w1 in
  statusOf "c1" (World.store world1) = idle
  /\ statusOf "c1" (World.store w1) = paused
  /\ World.timeouts w1 = [after_start (render "c1" ["p1"; "p9"] world1)]
  /\ World.store w2 = setConversationStatus "c1" generating None (World.store w1)
  /\ statusOf "c1" (World.store w2) = generating.
Proof.
  intros w1 w2. repeat split; vm_compute; reflexivity.
Qed.

Section PauseGuard.

Variable conversationId : string.
Variable participants : list string.

Lemma statusOf_setConversationStatus st sp s :
  statusOf conversationId (setConversationStatus conversationId st sp s) = st.
Proof. unfold statusOf, setConversationStatus. simpl. by rewrite lookup_insert_eq. Qed.

Lemma clearAutoModeInterval_store w :
  World.store (clearAutoModeInterval w) = World.store w.
Proof. unfold clearAutoModeInterval. by destruct (World.autoModeRef w). Qed.

Lemma registerParticipant_fold_store r (l : list string) w :
  World.store (foldl (registerParticipant r) w l) = World.store w.
Proof.
  revert w. induction l as [|pid l IH]; intros w; simpl; [done|].
  rewrite IH. unfold registerParticipant. by destruct (findPersona _ _).
Qed.

Lemma resetConversation_status r w :
  statusOf conversationId (World.store (resetConversation conversationId r w)) = idle.
Proof.
  unfold resetConversation. destruct (Render.isAutoMode r); simpl.
  - rewrite clearAutoModeInterval_store. apply statusOf_setConversationStatus.
  - apply statusOf_setConversationStatus.
Qed.

Lemma startAutoMode_store r w :
  World.store (startAutoMode conversationId r w)
  = World.store (if Render.isPaused r || Render.isStopped r
                 then resetConversation conversationId r w else w).
Proof. unfold startAutoMode. simpl. by rewrite registerParticipant_fold_store. Qed.

Lemma updateMessage_statusOf now p s :
  statusOf conversationId (updateMessage now p s) = statusOf conversationId s
  \/ statusOf conversationId (updateMessage now p s) = idle.
Proof.
  unfold updateMessage.
  destruct (findIndex _ (ConversationState.conversations s)) as [ci|]; [|by left].
  destruct (ConversationState.conversations s !! ci) as [c|]; [|by left].
  destruct (findIndex _ (Conversation.messages c)) as [mi|]; [|by left].
  destruct (Conversation.messages c !! mi) as [prev|]; [|by left].
  destruct (_ && _); [|by left].
  unfold statusOf. simpl.
  destruct (decide (UpdateMessage.conversationId p = conversationId)) as [->|Hne].
  - right. by rewrite lookup_insert_eq.
  - left. by rewrite lookup_insert_ne.
Qed.

Lemma onmessage_statusOf now f s :
  statusOf conversationId (onmessage now f s) = statusOf conversationId s
  \/ statusOf conversationId (onmessage now f s) = idle.
Proof.
  destruct f as [d|[m|]|d| |]; simpl; try (by left); try apply updateMessage_statusOf.
  unfold handleError.
  destruct (truthy (ErrorFrame.messageId d)), (truthy (ErrorFrame.id d)),
    (truthy (ErrorFrame.conversationId d)); try (by left); apply updateMessage_statusOf.
Qed.

(** What the guards achieve when they read the current status: no handler of
    the latest render, and no inbound frame, takes a paused conversation to
    generating.  Only the timer callbacks, which keep the render that armed
    them, escape it. *)
Lemma latest_render_respects_pause (e : UiEvent) (w : World.t) :
  from_latest_render e = true ->
  statusOf conversationId (World.store w) = paused ->
  statusOf conversationId (World.store (ui_step conversationId participants e w))
  <> generating.
Proof.
  intros He Hp. unfold ui_step.
  set (r := render conversationId participants w).
  assert (Hr : Render.status r = paused) by exact Hp.
  assert (HisP : Render.isPaused r = true)
    by (unfold Render.isPaused; by rewrite Hr).
  assert (HisS : Render.isStopped r = false)
    by (unfold Render.isStopped; by rewrite Hr).
  destruct e as [| | | |message uuid now1 now2|k|h|now f|e']; try done.
  - rewrite HisS. destruct (Render.isAutoMode r).
    + unfold stopAutoMode. rewrite clearAutoModeInterval_store. simpl. by rewrite Hp.
    + rewrite startAutoMode_store, HisP. simpl. by rewrite resetConversation_status.
  - rewrite HisP. rewrite !orb_true_r. simpl. by rewrite Hp.
  - rewrite HisS. unfold handlePause. rewrite HisP.
    destruct (Render.isAutoMode r) eqn:Ha.
    + rewrite startAutoMode_store, HisP. simpl. by rewrite resetConversation_status.
    + unfold dispatchStatus. simpl. by rewrite statusOf_setConversationStatus.
  - rewrite HisS. unfold handleStop, wsSend.
    cbn [World.store World.set_calls World.set_service].
    destruct (Render.isAutoMode r); cbn [World.store World.set_isAutoMode].
    + rewrite clearAutoModeInterval_store. unfold dispatchStatus.
      cbn [World.store World.set_store]. by rewrite statusOf_setConversationStatus.
    + unfold dispatchStatus.
      cbn [World.store World.set_store]. by rewrite statusOf_setConversationStatus.
  - rewrite HisS. unfold handleSendMessage.
    destruct (is_blank message); [by rewrite Hp|].
    destruct (Render.isAutoMode r); simpl; by rewrite statusOf_setConversationStatus.
  - simpl. destruct (onmessage_statusOf now f (World.store w)) as [->| ->];
      [by rewrite Hp|done].
  - simpl. by rewrite Hp.
Qed.

End PauseGuard.

(** * Further properties of the store *)

(** ** Selection by id *)

Lemma findIndex_lookup_find {A} (p : A -> bool) (l : list A) :
  (i ← findIndex p l; l !! i) = List.find p l.
Proof.
  induction l as [|a l IH]; simpl; [done|].
  destruct (p a); [done|].
  rewrite <- IH. by destruct (findIndex p l).
Qed.

Lemma conversationOf_find (cid : string) (s : ConversationState.t) :
  conversationOf cid s = List.find (has_id cid) (ConversationState.conversations s).
Proof. apply findIndex_lookup_find. Qed.

Lemma find_filter_implied {A} (p : A -> bool) (Q : A -> Prop)
    `{!forall x, Decision (Q x)} (l : list A) :
  (forall x, p x = true -> Q x) ->
  List.find p (filter Q l) = List.find p l.
Proof.
  intros Himp. induction l as [|a l IH]; [done|].
  rewrite filter_cons. destruct (decide (Q a)) as [Hq|Hq]; simpl.
  - by rewrite IH.
  - destruct (p a) eqn:Hp; [|done]. by apply Himp in Hp.
Qed.

Lemma findIndex_app_r {A} (p : A -> bool) (l k : list A) :
  findIndex p l = None ->
  findIndex p (l ++ k) = (fun i => length l + i) <$> findIndex p k.
Proof.
  induction l as [|a l IH]; simpl.
  - intros _. by destruct (findIndex p k).
  - destruct (p a); [done|].
    destruct (findIndex p l); [done|]. intros _.
    rewrite IH by done. by destruct (findIndex p k).
Qed.

Lemma findIndex_id (cid : string) (cs : list Conversation.t) (i : nat) (c : Conversation.t) :
  findIndex (has_id cid) cs = Some i -> cs !! i = Some c -> Conversation.id c = cid.
Proof.
  intros Hi Hc. destruct (findIndex_Some _ _ _ Hi) as (x & _ & Hx & Hp & _).
  assert (x = c) by congruence. subst x. by apply string_eqb_true.
Qed.

Lemma findIndex_msg_id (mid : string) (ms : list Message.t) (i : nat) (m : Message.t) :
  findIndex (msg_has_id mid) ms = Some i -> ms !! i = Some m -> Message.id m = mid.
Proof.
  intros Hi Hm. destruct (findIndex_Some _ _ _ Hi) as (x & _ & Hx & Hp & _).
  assert (x = m) by congruence. subst x. by apply string_eqb_true.
Qed.

(** ** [createConversation] *)

(** X1.  [createConversation] puts the new conversation last: every
    conversation that an id selected before is still the one it selects.
    The new id is the payload's unless that is absent or empty, in which
    case it is the generated one; it becomes the active id and its
    turn-status entry is reset to idle without speaker or last message.  If
    no stored conversation had that id, it now selects the new
    conversation, which has the payload's participants and no message. *)
Theorem createConversation_appends (uuid : string) (now1 now2 : Z)
    (p : CreateConversation.t) (s : ConversationState.t) :
  let newId := or_else (CreateConversation.id p) uuid in
  let s' := createConversation uuid now1 now2 p s in
  (forall cid c, conversationOf cid s = Some c -> conversationOf cid s' = Some c)
  /\ (newId = uuid \/ (CreateConversation.id p = Some newId /\ newId <> ""))
  /\ ConversationState.activeConversationId s' = Some newId
  /\ ConversationState.conversationStatus s' !! newId = Some (TurnStatus.mk idle None None)
  /\ (forall cid, cid <> newId ->
        ConversationState.conversationStatus s' !! cid
        = ConversationState.conversationStatus s !! cid)
  /\ ((forall c, c ∈ ConversationState.conversations s -> Conversation.id c <> newId) ->
      exists c, conversationOf newId s' = Some c
                /\ Conversation.messages c = []
                /\ Conversation.participants c = CreateConversation.participants p
                /\ Conversation.title c = CreateConversation.title p).
Proof.
  intros newId s'. split; [|split; [|split; [|split; [|split]]]].
  - intros cid c Hc. apply conversationOf_Some in Hc as (i & Hi & Hc).
    unfold conversationOf, s', createConversation. simpl.
    rewrite (findIndex_app_l _ _ _ _ Hi). simpl.
    rewrite lookup_app_l by (by eapply lookup_lt_Some). done.
  - unfold newId, or_else. destruct (CreateConversation.id p) as [i|]; [|by left].
    destruct (String.eqb i "") eqn:He; [by left|].
    right. split; [done|]. by apply string_eqb_false.
  - reflexivity.
  - unfold s', createConversation. simpl. apply lookup_insert_eq.
  - intros cid Hne. unfold s', createConversation. simpl. by apply lookup_insert_ne.
  - intros Hfresh.
    exists (Conversation.mk newId (CreateConversation.title p) now1 now2
              (CreateConversation.participants p) [] None None true).
    split; [|done].
    unfold conversationOf, s', createConversation. simpl.
    rewrite findIndex_app_r by (by apply conversationOf_None).
    simpl. unfold has_id at 1. simpl. fold newId.
    rewrite (proj2 (string_eqb_true newId newId) eq_refl). simpl.
    rewrite lookup_app_r by lia. by rewrite Nat.add_0_r, Nat.sub_diag.
Qed.

Lemma createConversation_appends_witness :
  exists c, conversationOf "c2"
              (createConversation "u1" 50 50
                 (CreateConversation.mk (Some "c2") "Second" ["p1"]) store2) = Some c
            /\ Conversation.messages c = []
            /\ Conversation.participants c = ["p1"]
            /\ Conversation.title c = "Second".
Proof.
  destruct (createConversation_appends "u1" 50 50
              (CreateConversation.mk (Some "c2") "Second" ["p1"]) store2)
    as (_ & _ & _ & _ & _ & H).
  apply H. intros c Hc. vm_compute in Hc.
  apply list_elem_of_singleton in Hc as ->. done.
Defined.

(** ** [deleteConversation] *)

(** X2.  [deleteConversation] removes every conversation that carries the
    id and nothing else: the id selects nothing afterwards, every other id
    selects what it selected before, and the active id is never left on the
    deleted one.  The turn-status map is not touched, so the deleted
    conversation's entry stays behind. *)
Theorem deleteConversation_removes (cid : string) (s : ConversationState.t) :
  let s' := deleteConversation cid s in
  conversationOf cid s' = None
  /\ (forall cid', cid' <> cid -> conversationOf cid' s' = conversationOf cid' s)
  /\ ConversationState.activeConversationId s' <> Some cid
  /\ (ConversationState.activeConversationId s <> Some cid ->
      ConversationState.activeConversationId s' = ConversationState.activeConversationId s)
  /\ ConversationState.conversationStatus s' = ConversationState.conversationStatus s.
Proof.
  intros s'.
  assert (Hgone : forall c, c ∈ ConversationState.conversations s' ->
                            Conversation.id c <> cid).
  { intros c Hc. unfold s', deleteConversation in Hc. simpl in Hc.
    by apply list_elem_of_filter in Hc as [Hc _]. }
  split; [|split; [|split; [|split]]].
  - unfold conversationOf. by rewrite (conversationOf_None cid s' Hgone).
  - intros cid' Hne. rewrite !conversationOf_find.
    unfold s', deleteConversation. simpl.
    apply find_filter_implied. intros c Hc.
    apply string_eqb_true in Hc. congruence.
  - unfold s', deleteConversation. simpl. case_decide as Ha; [|done].
    destruct (head _) as [c|] eqn:Hh; [|done]. simpl. intros [= Hc].
    apply head_Some_elem_of in Hh. apply list_elem_of_filter in Hh as [Hh _]. done.
  - intros Ha. unfold s', deleteConversation. simpl. by rewrite decide_False.
  - reflexivity.
Qed.

Lemma deleteConversation_removes_witness :
  ConversationState.activeConversationId (deleteConversation "zz" store2) = Some "c1".
Proof.
  destruct (deleteConversation_removes "zz" store2) as (_ & _ & _ & H & _).
  rewrite H; [reflexivity|]. vm_compute. discriminate.
Defined.

(** ** [updateMessage], [deleteMessage] and the inbound handlers *)

Lemma updateMessage_absent (now : Z) (p : UpdateMessage.t) (s : ConversationState.t) :
  messageOf (UpdateMessage.conversationId p) (UpdateMessage.id p) s = None ->
  updateMessage now p s = s.
Proof.
  unfold messageOf, messagesOf, conversationOf, updateMessage.
  destruct (findIndex _ (ConversationState.conversations s)) as [ci|]; [|done]. simpl.
  destruct (ConversationState.conversations s !! ci) as [c|]; [|done]. simpl.
  destruct (findIndex _ (Conversation.messages c)) as [mi|]; [|done]. simpl.
  by destruct (Conversation.messages c !! mi).
Qed.

Lemma updateMessage_conversations now p s ci c mi prev :
  findIndex (has_id (UpdateMessage.conversationId p)) (ConversationState.conversations s)
    = Some ci ->
  ConversationState.conversations s !! ci = Some c ->
  findIndex (msg_has_id (UpdateMessage.id p)) (Conversation.messages c) = Some mi ->
  Conversation.messages c !! mi = Some prev ->
  ConversationState.conversations (updateMessage now p s)
  = <[ci := Conversation.set_updated now
              (Conversation.set_messages
                 (<[mi := merge prev p]> (Conversation.messages c)) c)]>
      (ConversationState.conversations s).
Proof.
  intros Hci Hc Hmi Hm. unfold updateMessage. rewrite Hci, Hc, Hmi, Hm.
  by destruct (_ && _).
Qed.

Lemma updateMessage_not_finished now p s :
  marksFinished p = false ->
  ConversationState.conversationStatus (updateMessage now p s)
  = ConversationState.conversationStatus s.
Proof.
  intros Hf. unfold updateMessage.
  destruct (findIndex _ (ConversationState.conversations s)) as [ci|]; [|done].
  destruct (ConversationState.conversations s !! ci) as [c|]; [|done].
  destruct (findIndex _ (Conversation.messages c)) as [mi|]; [|done].
  destruct (Conversation.messages c !! mi) as [prev|]; [|done].
  by rewrite Hf, andb_false_r.
Qed.

Lemma updateMessage_messageOf now p s prev :
  messageOf (UpdateMessage.conversationId p) (UpdateMessage.id p) s = Some prev ->
  messageOf (UpdateMessage.conversationId p) (UpdateMessage.id p) (updateMessage now p s)
  = Some (merge prev p).
Proof.
  intros Hprev. apply messageOf_Some in Hprev as (ci & c & mi & Hci & Hc & Hmi & Hm).
  unfold messageOf, messagesOf, conversationOf.
  rewrite (updateMessage_conversations _ _ _ _ _ _ _ Hci Hc Hmi Hm).
  rewrite (findIndex_has_id_insert _ _ _ c) by done. rewrite Hci. simpl.
  rewrite list_lookup_insert_eq by (by eapply lookup_lt_Some). simpl.
  assert (Hsame : msg_has_id (UpdateMessage.id p) (merge prev p)
                  = msg_has_id (UpdateMessage.id p) prev).
  { unfold msg_has_id. simpl. rewrite (findIndex_msg_id _ _ _ _ Hmi Hm).
    reflexivity. }
  rewrite (findIndex_ext (msg_has_id (UpdateMessage.id p)) (msg_has_id (UpdateMessage.id p))
             _ (Conversation.messages c))
    by (by apply map_insert_same with (x := prev)).
  rewrite Hmi. simpl.
  apply list_lookup_insert_eq. by eapply lookup_lt_Some.
Qed.

(** X3.  [updateMessage] never adds, removes or reorders anything: the
    conversation list keeps its ids, every conversation keeps the ids of its
    messages in the same order, and the active id is unchanged.  In
    particular ids that were distinct stay distinct. *)
Theorem updateMessage_keeps_ids (now : Z) (p : UpdateMessage.t) (s : ConversationState.t) :
  (fun c => (Conversation.id c, Message.id <$> Conversation.messages c))
    <$> ConversationState.conversations (updateMessage now p s)
  = (fun c => (Conversation.id c, Message.id <$> Conversation.messages c))
      <$> ConversationState.conversations s
  /\ ConversationState.activeConversationId (updateMessage now p s)
     = ConversationState.activeConversationId s.
Proof.
  destruct (messageOf (UpdateMessage.conversationId p) (UpdateMessage.id p) s)
    as [prev|] eqn:Hprev.
  - apply messageOf_Some in Hprev as (ci & c & mi & Hci & Hc & Hmi & Hm). split.
    + rewrite (updateMessage_conversations _ _ _ _ _ _ _ Hci Hc Hmi Hm).
      apply map_insert_same with (x := c); [done|]. simpl. f_equal.
      apply map_insert_same with (x := prev); [done|]. simpl.
      symmetry. by eapply findIndex_msg_id.
    + unfold updateMessage. rewrite Hci, Hc, Hmi, Hm. by destruct (_ && _).
  - by rewrite updateMessage_absent.
Qed.

(** X4.  A [message_chunk] for a stored message replaces its content by
    the chunk: what the message held before is dropped, not extended.
    Sender, timestamp, reply reference and metadata are kept. *)
Theorem chunk_replaces_content (now : Z) (d : Chunk.t) (s : ConversationState.t)
    (prev : Message.t) :
  messageOf (Chunk.conversationId d) (Chunk.messageId d) s = Some prev ->
  exists m,
    messageOf (Chunk.conversationId d) (Chunk.messageId d) (handleMessageChunk now d s)
      = Some m
    /\ Message.content m = Chunk.chunk d
    /\ Message.id m = Message.id prev
    /\ Message.senderId m = Message.senderId prev
    /\ Message.senderType m = Message.senderType prev
    /\ Message.timestamp m = Message.timestamp prev
    /\ Message.replyToId m = Message.replyToId prev
    /\ Message.metadata m = Message.metadata prev.
Proof.
  intros Hprev. unfold handleMessageChunk.
  set (p := UpdateMessage.mk _ _ _ _ _ _ _ _).
  exists (merge prev p). split; [exact (updateMessage_messageOf now p s prev Hprev)|].
  repeat split. simpl.
  apply messageOf_Some in Hprev as (ci & c & mi & Hci & Hc & Hmi & Hm).
  symmetry. by eapply findIndex_msg_id.
Qed.

Lemma chunk_replaces_content_witness :
  exists m,
    messageOf "c1" "m2" (handleMessageChunk 40 (Chunk.mk "c1" "m2" "Hel") store2) = Some m
    /\ Message.content m = "Hel"
    /\ Message.id m = "m2"
    /\ Message.senderId m = "p1"
    /\ Message.senderType m = agent
    /\ Message.timestamp m = 30%Z
    /\ Message.replyToId m = None
    /\ Message.metadata m = None.
Proof.
  exact (chunk_replaces_content 40 (Chunk.mk "c1" "m2" "Hel") store2
           (newMessage "m2" 30 pending) eq_refl).
Defined.

(** X5.  Chunks and error frames never move the turn status: whatever the
    store and the frame, [handleMessageChunk] and [handleError] return the
    turn-status map they found.  Only a [message_complete] can. *)
Theorem chunk_and_error_keep_status (now : Z) (s : ConversationState.t) :
  (forall d, ConversationState.conversationStatus (handleMessageChunk now d s)
             = ConversationState.conversationStatus s)
  /\ (forall d, ConversationState.conversationStatus (handleError now d s)
                = ConversationState.conversationStatus s).
Proof.
  split; intros d.
  - by apply updateMessage_not_finished.
  - unfold handleError.
    destruct (truthy (ErrorFrame.messageId d)), (truthy (ErrorFrame.id d)),
      (truthy (ErrorFrame.conversationId d)); try done;
      by apply updateMessage_not_finished.
Qed.

(** X6.  An error frame that names a stored message, by [messageId] or,
    failing that, by [id], overwrites that message's metadata with a record
    holding only the error text (the frame's message, or the fixed fallback
    when that is absent or empty); whatever metadata the message had is
    lost.  The content and the other fields are kept. *)
Theorem error_overwrites_metadata (now : Z) (d : ErrorFrame.t) (s : ConversationState.t)
    (cid mid : string) (prev : Message.t) :
  truthy (ErrorFrame.conversationId d) = Some cid ->
  (truthy (ErrorFrame.messageId d) = Some mid
   \/ (truthy (ErrorFrame.messageId d) = None /\ truthy (ErrorFrame.id d) = Some mid)) ->
  messageOf cid mid s = Some prev ->
  exists m,
    messageOf cid mid (handleError now d s) = Some m
    /\ Message.metadata m
       = Some (Metadata.mk None None None
                 (Some (or_else (ErrorFrame.message d) "Failed to generate response"))
                 None)
    /\ Message.content m = Message.content prev
    /\ Message.senderId m = Message.senderId prev
    /\ Message.timestamp m = Message.timestamp prev.
Proof.
  intros Hcid Hmid Hprev.
  set (p := UpdateMessage.mk mid cid None None None None None
              (Some (Some (errorMetadata d)))).
  assert (Hrun : handleError now d s = updateMessage now p s).
  { unfold handleError. rewrite Hcid.
    destruct Hmid as [-> | [-> ->]]; [|done].
    by destruct (truthy (ErrorFrame.id d)). }
  rewrite Hrun. exists (merge prev p).
  split; [exact (updateMessage_messageOf now p s prev Hprev)|]. done.
Qed.

Lemma error_overwrites_metadata_witness :
  exists m,
    messageOf "c1" "m2"
      (handleError 40 (ErrorFrame.mk None None (Some "m2") (Some "c1")) store2) = Some m
    /\ Message.metadata m
       = Some (Metadata.mk None None None (Some "Failed to generate response") None)
    /\ Message.content m = "..."
    /\ Message.senderId m = "p1"
    /\ Message.timestamp m = 30%Z.
Proof.
  exact (error_overwrites_metadata 40 (ErrorFrame.mk None None (Some "m2") (Some "c1"))
           store2 "c1" "m2" (newMessage "m2" 30 pending) eq_refl
           (or_intror (conj eq_refl eq_refl)) eq_refl).
Defined.

(** X7.  [deleteMessage] removes from the selected conversation every
    message that carries the id and keeps the others in order; afterwards
    the (conversation, message) pair selects nothing, so a later update or
    chunk for it leaves the store as it is.  The turn-status map is not
    touched. *)
Theorem deleteMessage_removes (now : Z) (mid cid : string) (s : ConversationState.t)
    (ms : list Message.t) :
  messagesOf cid s = Some ms ->
  let s' := deleteMessage now mid cid s in
  messagesOf cid s' = Some (filter (fun m => Message.id m <> mid) ms)
  /\ messageOf cid mid s' = None
  /\ (forall now' p,
        UpdateMessage.conversationId p = cid -> UpdateMessage.id p = mid ->
        updateMessage now' p s' = s')
  /\ ConversationState.conversationStatus s' = ConversationState.conversationStatus s.
Proof.
  intros Hms s'. apply messagesOf_Some in Hms as (i & c & Hi & Hc & <-).
  assert (Hconv : ConversationState.conversations s'
                  = <[i := Conversation.set_updated now
                             (Conversation.set_messages
                                (filter (fun m => Message.id m <> mid)
                                   (Conversation.messages c)) c)]>
                      (ConversationState.conversations s)).
  { unfold s', deleteMessage. rewrite Hi. simpl. unfold update_at. by rewrite Hc. }
  assert (Hmsgs : messagesOf cid s'
                  = Some (filter (fun m => Message.id m <> mid) (Conversation.messages c))).
  { unfold messagesOf, conversationOf. rewrite Hconv.
    rewrite (findIndex_has_id_insert _ _ _ c) by done. rewrite Hi. simpl.
    by rewrite list_lookup_insert_eq by (by eapply lookup_lt_Some). }
  assert (Hnone : messageOf cid mid s' = None).
  { unfold messageOf. rewrite Hmsgs. simpl.
    assert (Hf : findIndex (msg_has_id mid)
                   (filter (fun m => Message.id m <> mid) (Conversation.messages c))
                 = None).
    { apply findIndex_None. intros m Hm. apply list_elem_of_filter in Hm as [Hm _].
      by apply string_eqb_false. }
    by rewrite Hf. }
  split; [done|]. split; [done|]. split.
  - intros now' p <- <-. by apply updateMessage_absent.
  - unfold s', deleteMessage. by rewrite Hi.
Qed.

Lemma deleteMessage_removes_witness :
  messagesOf "c1" (deleteMessage 40 "m1" "c1" store2)
  = Some (filter (fun m => Message.id m <> "m1")
            [newMessage "m1" 20 hello; newMessage "m2" 30 pending])
  /\ messageOf "c1" "m1" (deleteMessage 40 "m1" "c1" store2) = None.
Proof.
  destruct (deleteMessage_removes 40 "m1" "c1" store2
              [newMessage "m1" 20 hello; newMessage "m2" 30 pending] eq_refl)
    as (H1 & H2 & _).
  split; [exact H1 | exact H2].
Defined.

(** ** [setConversationStatus] *)

Lemma setConversationStatus_twice (cid : string) (st1 st2 : Status)
    (sp1 sp2 : option string) (s : ConversationState.t) :
  setConversationStatus cid st2 sp2 (setConversationStatus cid st1 sp1 s)
  = setConversationStatus cid st2 sp2 s.
Proof.
  unfold setConversationStatus, ConversationState.set_conversationStatus. simpl.
  f_equal. rewrite lookup_insert_eq. simpl. by rewrite insert_insert_eq.
Qed.

(** X8.  Direct transitions overwrite each other: of two
    [setConversationStatus] dispatches for one conversation only the second
    shows, in status and in speaker.  The recorded [lastMessageId] survives
    every such dispatch, and the entries of other conversations, the
    conversations and the active id are untouched. *)
Theorem setConversationStatus_overwrites (cid : string) (st1 st2 : Status)
    (sp1 sp2 : option string) (s : ConversationState.t) :
  setConversationStatus cid st2 sp2 (setConversationStatus cid st1 sp1 s)
  = setConversationStatus cid st2 sp2 s
  /\ ConversationState.conversationStatus (setConversationStatus cid st1 sp1 s) !! cid
     = Some (TurnStatus.mk st1 sp1 (lastMessageIdOf cid s))
  /\ (forall cid', cid' <> cid ->
        ConversationState.conversationStatus (setConversationStatus cid st1 sp1 s) !! cid'
        = ConversationState.conversationStatus s !! cid')
  /\ ConversationState.conversations (setConversationStatus cid st1 sp1 s)
     = ConversationState.conversations s
  /\ ConversationState.activeConversationId (setConversationStatus cid st1 sp1 s)
     = ConversationState.activeConversationId s.
Proof.
  split; [|split; [|split; [|split]]]; try reflexivity.
  - apply setConversationStatus_twice.
  - unfold setConversationStatus. simpl. by rewrite lookup_insert_eq.
  - intros cid' Hne. unfold setConversationStatus. simpl. by rewrite lookup_insert_ne.
Qed.

(** ** [addMessage]: what it leaves alone *)

(** X9.  [addMessage] keeps the conversation list's length, ids and order
    and the active id; every conversation selected by another id is
    unchanged, as is every turn-status entry of another id; and a message
    whose sender is not the user leaves the whole turn-status map
    unchanged. *)
Theorem addMessage_frame (uuid : string) (now1 now2 : Z) (p : AddMessage.t)
    (s : ConversationState.t) :
  let s' := addMessage uuid now1 now2 p s in
  Conversation.id <$> ConversationState.conversations s'
  = Conversation.id <$> ConversationState.conversations s
  /\ ConversationState.activeConversationId s' = ConversationState.activeConversationId s
  /\ (forall cid, cid <> AddMessage.conversationId p ->
        conversationOf cid s' = conversationOf cid s
        /\ ConversationState.conversationStatus s' !! cid
           = ConversationState.conversationStatus s !! cid)
  /\ (AddMessage.senderType p <> user ->
      ConversationState.conversationStatus s' = ConversationState.conversationStatus s).
Proof.
  intros s'.
  destruct (findIndex (has_id (AddMessage.conversationId p))
              (ConversationState.conversations s)) as [i|] eqn:Hi.
  - destruct (findIndex_Some _ _ _ Hi) as (c & _ & Hc & _ & _).
    assert (Hconv := addMessage_conversations uuid now1 now2 p s i c Hi Hc).
    fold s' in Hconv.
    assert (Hids : Conversation.id <$> ConversationState.conversations s'
                   = Conversation.id <$> ConversationState.conversations s).
    { rewrite Hconv. by apply map_insert_same with (x := c). }
    split; [exact Hids|]. split.
    { unfold s', addMessage. rewrite Hi. simpl.
      by destruct (AddMessage.senderType p). }
    split.
    + intros cid Hne. split.
      * unfold conversationOf. rewrite (findIndex_has_id_ids cid _ _ Hids).
        destruct (findIndex (has_id cid) (ConversationState.conversations s))
          as [j|] eqn:Hj; [|done]. simpl.
        rewrite Hconv. apply list_lookup_insert_ne. intros ->.
        destruct (findIndex_Some _ _ _ Hj) as (c' & _ & Hc' & _ & _).
        apply Hne. rewrite <- (findIndex_id _ _ _ _ Hj Hc').
        assert (c' = c) by congruence. subst c'. by eapply findIndex_id.
      * unfold s', addMessage. rewrite Hi. simpl.
        destruct (AddMessage.senderType p); simpl; try done.
        by rewrite lookup_insert_ne.
    + intros Hu. unfold s', addMessage. rewrite Hi. simpl.
      by destruct (AddMessage.senderType p).
  - assert (Hs : s' = s) by (unfold s', addMessage; by rewrite Hi).
    rewrite Hs. repeat split; done.
Qed.

Lemma addMessage_frame_witness :
  ConversationState.conversationStatus (addMessage "m3" 40 41 pending store2)
  = ConversationState.conversationStatus store2.
Proof.
  destruct (addMessage_frame "m3" 40 41 pending store2) as (_ & _ & _ & H).
  apply H. discriminate.
Defined.

(** ** [createBranch]: edge cases and the copy kept by the parent *)

(** X10.  When no stored conversation carries [parentId], or the one it
    selects has no message with id [startFromMessageId], [createBranch]
    returns the store unchanged: no branch, no change of the active id. *)
Theorem createBranch_missing_is_noop (now1 now2 : Z) (p : CreateBranch.t)
    (s : ConversationState.t) :
  (forall parent m,
      conversationOf (CreateBranch.parentId p) s = Some parent ->
      m ∈ Conversation.messages parent ->
      Message.id m <> CreateBranch.startFromMessageId p) ->
  createBranch now1 now2 p s = s.
Proof.
  intros H. unfold createBranch.
  destruct (findIndex _ (ConversationState.conversations s)) as [pi|] eqn:Hpi; [|done].
  destruct (ConversationState.conversations s !! pi) as [parent|] eqn:Hc; [|done].
  assert (Hnone : findIndex (msg_has_id (CreateBranch.startFromMessageId p))
                    (Conversation.messages parent) = None).
  { apply findIndex_None. intros m Hm. apply string_eqb_false.
    apply (H parent m); [|done]. unfold conversationOf. rewrite Hpi. done. }
  by rewrite Hnone.
Qed.

Lemma createBranch_missing_is_noop_witness :
  createBranch 50 51 (CreateBranch.mk "c1" "b1" "m9" "Fork") store2 = store2.
Proof.
  apply createBranch_missing_is_noop. intros parent m Hp Hm.
  vm_compute in Hp. injection Hp as <-. simpl in Hm.
  apply elem_of_cons in Hm as [->|Hm]; [done|].
  apply list_elem_of_singleton in Hm as ->. done.
Defined.

Lemma createBranch_conversations now1 now2 p s pi parent mi :
  findIndex (has_id (CreateBranch.parentId p)) (ConversationState.conversations s)
    = Some pi ->
  ConversationState.conversations s !! pi = Some parent ->
  findIndex (msg_has_id (CreateBranch.startFromMessageId p))
    (Conversation.messages parent) = Some mi ->
  let branch :=
    Conversation.mk (CreateBranch.branchId p) (CreateBranch.title p) now1 now2
      (Conversation.participants parent)
      (take (S mi) (Conversation.messages parent)) None
      (Some (CreateBranch.parentId p)) true in
  ConversationState.conversations (createBranch now1 now2 p s)
  = <[pi := Conversation.set_branches
              (Some (<[CreateBranch.branchId p := branch]>
                       (default ∅ (Conversation.branches parent)))) parent]>
      (ConversationState.conversations s) ++ [branch]
  /\ ConversationState.conversationStatus (createBranch now1 now2 p s)
     = ConversationState.conversationStatus s.
Proof.
  intros Hpi Hc Hmi. unfold createBranch. by rewrite Hpi, Hc, Hmi.
Qed.

(** X11.  The branch kept in the parent's [branches] is a copy made at
    creation.  With a branch id that no stored conversation carries, the
    new id selects the branch in the conversation list; a message then
    added to that id lands in the listed branch only: the parent, and with
    it the copy under [branches], is exactly what it was after
    [createBranch].  The parent's own messages are never changed, and
    [createBranch] creates no turn-status entry. *)
Theorem branch_copy_is_a_snapshot (now1 now2 : Z) (bp : CreateBranch.t)
    (s : ConversationState.t) (parent : Conversation.t) (m : Message.t)
    (uuid : string) (n1 n2 : Z) (ap : AddMessage.t) :
  conversationOf (CreateBranch.parentId bp) s = Some parent ->
  m ∈ Conversation.messages parent ->
  Message.id m = CreateBranch.startFromMessageId bp ->
  (forall c, c ∈ ConversationState.conversations s ->
             Conversation.id c <> CreateBranch.branchId bp) ->
  AddMessage.conversationId ap = CreateBranch.branchId bp ->
  let s1 := createBranch now1 now2 bp s in
  let s2 := addMessage uuid n1 n2 ap s1 in
  exists branch parent' bm,
    conversationOf (CreateBranch.branchId bp) s1 = Some branch
    /\ conversationOf (CreateBranch.parentId bp) s1 = Some parent'
    /\ Conversation.messages parent' = Conversation.messages parent
    /\ Conversation.branches parent' = Some bm
    /\ bm !! CreateBranch.branchId bp = Some branch
    /\ ConversationState.conversationStatus s1 = ConversationState.conversationStatus s
    /\ messagesOf (CreateBranch.branchId bp) s2
       = Some (Conversation.messages branch ++ [newMessage uuid n1 ap])
    /\ conversationOf (CreateBranch.parentId bp) s2 = Some parent'.
Proof.
  intros Hparent Hm Hid Hfresh Hap s1 s2.
  apply conversationOf_Some in Hparent as (pi & Hpi & Hc).
  destruct (findIndex_is_Some (msg_has_id (CreateBranch.startFromMessageId bp))
              (Conversation.messages parent) m Hm) as [mi Hmi].
  { unfold msg_has_id. by apply string_eqb_true. }
  destruct (createBranch_conversations now1 now2 bp s pi parent mi Hpi Hc Hmi)
    as [Hconv Hstat].
  fold s1 in Hconv, Hstat.
  set (branch := Conversation.mk (CreateBranch.branchId bp) (CreateBranch.title bp)
                   now1 now2 (Conversation.participants parent)
                   (take (S mi) (Conversation.messages parent)) None
                   (Some (CreateBranch.parentId bp)) true) in *.
  set (bm := <[CreateBranch.branchId bp := branch]>
               (default ∅ (Conversation.branches parent))) in *.
  set (parent' := Conversation.set_branches (Some bm) parent) in *.
  set (cs := ConversationState.conversations s) in *.
  assert (Hlt : pi < length cs) by (by eapply lookup_lt_Some).
  assert (Hne : CreateBranch.parentId bp <> CreateBranch.branchId bp).
  { intros Heq. apply (Hfresh parent); [by eapply list_elem_of_lookup_2|].
    rewrite <- Heq. by eapply findIndex_id. }
  (* where the two ids point in the list after createBranch *)
  assert (Hfp : findIndex (has_id (CreateBranch.parentId bp)) (<[pi := parent']> cs ++ [branch])
                = Some pi).
  { apply findIndex_app_l. by rewrite (findIndex_has_id_insert _ _ _ parent). }
  assert (Hfb : findIndex (has_id (CreateBranch.branchId bp)) (<[pi := parent']> cs ++ [branch])
                = Some (length cs)).
  { rewrite findIndex_app_r.
    - simpl. unfold has_id at 1. simpl.
      rewrite (proj2 (string_eqb_true _ _) eq_refl). simpl.
      by rewrite length_insert, Nat.add_0_r.
    - rewrite (findIndex_has_id_insert _ _ _ parent) by done.
      by apply conversationOf_None. }
  assert (Hlb : (<[pi := parent']> cs ++ [branch]) !! length cs = Some branch).
  { rewrite lookup_app_r by (rewrite length_insert; lia).
    by rewrite length_insert, Nat.sub_diag. }
  assert (Hlp : (<[pi := parent']> cs ++ [branch]) !! pi = Some parent').
  { rewrite lookup_app_l by (by rewrite length_insert).
    by apply list_lookup_insert_eq. }
  exists branch, parent', bm.
  split. { unfold conversationOf. rewrite Hconv, Hfb. exact Hlb. }
  split. { unfold conversationOf. rewrite Hconv, Hfp. exact Hlp. }
  do 2 (split; [reflexivity|]).
  split. { apply lookup_insert_eq. }
  split; [exact Hstat|].
  assert (Hfb1 : findIndex (has_id (AddMessage.conversationId ap))
                   (ConversationState.conversations s1) = Some (length cs))
    by (by rewrite Hap, Hconv).
  assert (Hlb1 : ConversationState.conversations s1 !! length cs = Some branch)
    by (by rewrite Hconv).
  assert (Hconv2 := addMessage_conversations uuid n1 n2 ap s1 _ _ Hfb1 Hlb1).
  fold s2 in Hconv2.
  split.
  - unfold messagesOf, conversationOf. rewrite Hconv2.
    rewrite (findIndex_has_id_insert _ _ _ branch) by done.
    rewrite <- Hap, Hfb1. simpl.
    rewrite list_lookup_insert_eq by (by eapply lookup_lt_Some). done.
  - unfold conversationOf. rewrite Hconv2.
    rewrite (findIndex_has_id_insert _ _ _ branch) by done.
    rewrite Hconv, Hfp. simpl.
    rewrite list_lookup_insert_ne by lia. exact Hlp.
Qed.

Lemma branch_copy_is_a_snapshot_witness :
  exists branch parent' bm,
    conversationOf "b1" (createBranch 50 51 branchFromFirst store2) = Some branch
    /\ conversationOf "c1" (createBranch 50 51 branchFromFirst store2) = Some parent'
    /\ Conversation.messages parent'
       = [newMessage "m1" 20 hello; newMessage "m2" 30 pending]
    /\ Conversation.branches parent' = Some bm
    /\ bm !! "b1" = Some branch
    /\ ConversationState.conversationStatus (createBranch 50 51 branchFromFirst store2)
       = ConversationState.conversationStatus store2
    /\ messagesOf "b1"
         (addMessage "m5" 60 61 (AddMessage.mk "b1" "user" user "again" None None)
            (createBranch 50 51 branchFromFirst store2))
       = Some (Conversation.messages branch
               ++ [newMessage "m5" 60 (AddMessage.mk "b1" "user" user "again" None None)])
    /\ conversationOf "c1"
         (addMessage "m5" 60 61 (AddMessage.mk "b1" "user" user "again" None None)
            (createBranch 50 51 branchFromFirst store2))
       = Some parent'.
Proof.
  refine (branch_copy_is_a_snapshot 50 51 branchFromFirst store2
            (Conversation.mk "c1" "Demo" 10 31 ["p1"; "p9"]
               [newMessage "m1" 20 hello; newMessage "m2" 30 pending] None None true)
            (newMessage "m1" 20 hello) "m5" 60 61
            (AddMessage.mk "b1" "user" user "again" None None)
            eq_refl (list_elem_of_here _ _) eq_refl _ eq_refl).
  intros c Hc. vm_compute in Hc. apply list_elem_of_singleton in Hc as ->. done.
Defined.

(** * Further properties of the transport *)

(** ** Subscriptions *)

Lemma slot_insert_eq (event : string) (l : list nat) (h : gmap string (list nat)) :
  slot event (<[event := l]> h) = own_slot l.
Proof. unfold slot. by rewrite lookup_insert_eq. Qed.

Lemma slot_insert_ne (event event' : string) (l : list nat) (h : gmap string (list nat)) :
  event' <> event -> slot event' (<[event := l]> h) = slot event' h.
Proof. intros Hne. unfold slot. by rewrite lookup_insert_ne. Qed.

Lemma slot_delete_ne (event event' : string) (h : gmap string (list nat)) :
  event' <> event -> slot event' (delete event h) = slot event' h.
Proof. intros Hne. unfold slot. by rewrite lookup_delete_ne. Qed.

Lemma slot_inherited (event : string) (h : gmap string (list nat)) :
  slot event h = inherited_slot <->
  h !! event = None /\ event ∈ objectPrototypeNames.
Proof.
  unfold slot. destruct (h !! event) as [l|].
  - split; [done|]. by intros [? _].
  - case_bool_decide as Hin; split; try done. by intros [_ ?].
Qed.

Lemma slot_not_inherited (event : string) (h : gmap string (list nat)) :
  is_Some (h !! event) \/ event ∉ objectPrototypeNames ->
  exists l, dispatchEvent event h = Some l
            /\ (slot event h = own_slot l \/ (slot event h = no_slot /\ l = [])).
Proof.
  intros H. unfold dispatchEvent, slot.
  destruct (h !! event) as [l|] eqn:Hl.
  - exists l. split; [done|]. by left.
  - destruct H as [[? ?]|Hn]; [done|]. rewrite bool_decide_eq_false_2 by done.
    exists []. split; [done|]. by right.
Qed.

(** X12.  For an event that has callbacks already, or whose name is not
    a member of [Object.prototype], [on] adds the callback after those
    registered, also when it is registered already, and leaves every other
    event alone: [dispatchEvent] then calls the old ones in their order
    and the new one last.  For an unregistered event named like a member of
    [Object.prototype] ("constructor", "toString", ...), [on] ends in a
    [TypeError] and registers nothing, and so does [dispatchEvent]. *)
Theorem on_appends_callback (event : string) (cb : nat) (h : gmap string (list nat)) :
  (h !! event = None -> event ∈ objectPrototypeNames ->
   on event cb h = None /\ dispatchEvent event h = None)
  /\ (is_Some (h !! event) \/ event ∉ objectPrototypeNames ->
      exists h' l,
        on event cb h = Some h'
        /\ dispatchEvent event h = Some l
        /\ dispatchEvent event h' = Some (l ++ [cb])
        /\ (forall event', event' <> event ->
              dispatchEvent event' h' = dispatchEvent event' h)).
Proof.
  split.
  - intros Hnone Hin.
    assert (Hs : slot event h = inherited_slot) by (by apply slot_inherited).
    unfold on, dispatchEvent. by rewrite Hs.
  - intros Hok. destruct (slot_not_inherited event h Hok) as (l & Hd & Hs).
    exists (<[event := l ++ [cb]]> h), l. split; [|split; [done|split]].
    + unfold on. destruct Hs as [-> | [-> ->]]; done.
    + unfold dispatchEvent. by rewrite slot_insert_eq.
    + intros event' Hne. unfold dispatchEvent. by rewrite slot_insert_ne.
Qed.

(** X13.  [off] without a callback deletes the event's own entry and
    nothing else; the event then has no callbacks, unless its name is a
    member of [Object.prototype], in which case [dispatchEvent] ends in a
    [TypeError].  [off] with a callback, for an event that has an entry or
    whose name is not such a member, removes every registration of that
    callback for the event, keeps the others in order and touches no other
    event; hence subscribing a callback that was not registered and
    unsubscribing it again restores what every event dispatches.  For an
    unregistered event named like a member of [Object.prototype], [off]
    with a callback ends in a [TypeError]. *)
Theorem off_removes_callbacks (event : string) (h : gmap string (list nat)) :
  (off event None h = Some (delete event h)
   /\ (event ∉ objectPrototypeNames -> dispatchEvent event (delete event h) = Some [])
   /\ (event ∈ objectPrototypeNames -> dispatchEvent event (delete event h) = None)
   /\ (forall event', event' <> event ->
         dispatchEvent event' (delete event h) = dispatchEvent event' h))
  /\ (h !! event = None -> event ∈ objectPrototypeNames ->
      forall cb, off event (Some cb) h = None)
  /\ (is_Some (h !! event) \/ event ∉ objectPrototypeNames ->
      forall cb, exists h' l,
        off event (Some cb) h = Some h'
        /\ dispatchEvent event h = Some l
        /\ dispatchEvent event h' = Some (filter (fun c => c <> cb) l)
        /\ (forall event', event' <> event ->
              dispatchEvent event' h' = dispatchEvent event' h))
  /\ (is_Some (h !! event) \/ event ∉ objectPrototypeNames ->
      forall cb l,
        dispatchEvent event h = Some l -> cb ∉ l ->
        exists h1 h2,
          on event cb h = Some h1
          /\ off event (Some cb) h1 = Some h2
          /\ (forall event', dispatchEvent event' h2 = dispatchEvent event' h)).
Proof.
  split; [|split; [|split]].
  - split; [done|]. split; [|split].
    + intros Hn. unfold dispatchEvent, slot.
      by rewrite lookup_delete_eq, bool_decide_eq_false_2.
    + intros Hin. unfold dispatchEvent, slot.
      by rewrite lookup_delete_eq, bool_decide_eq_true_2.
    + intros event' Hne. unfold dispatchEvent. by rewrite slot_delete_ne.
  - intros Hnone Hin cb.
    assert (Hs : slot event h = inherited_slot) by (by apply slot_inherited).
    unfold off. by rewrite Hs.
  - intros Hok cb. destruct (slot_not_inherited event h Hok) as (l & Hd & Hs).
    destruct Hs as [Hs | [Hs ->]].
    + exists (<[event := filter (fun c => c <> cb) l]> h), l.
      split; [|split; [done|split]].
      * unfold off. by rewrite Hs.
      * unfold dispatchEvent. by rewrite slot_insert_eq.
      * intros event' Hne. unfold dispatchEvent. by rewrite slot_insert_ne.
    + exists h, []. split; [|split; [done|split]].
      * unfold off. by rewrite Hs.
      * unfold dispatchEvent. by rewrite Hs.
      * done.
  - intros Hok cb l Hd Hcb.
    destruct (slot_not_inherited event h Hok) as (l' & Hd' & Hs).
    assert (l' = l) by congruence. subst l'.
    assert (Hfilter : filter (fun c => c <> cb) (l ++ [cb]) = l).
    { rewrite filter_app, filter_cons_False, filter_nil, app_nil_r by (intros ?; done).
      clear -Hcb. induction l as [|c l IH]; [done|].
      apply not_elem_of_cons in Hcb as [Hc Hl].
      rewrite filter_cons_True by done. by rewrite IH. }
    exists (<[event := l ++ [cb]]> h),
           (<[event := filter (fun c => c <> cb) (l ++ [cb])]> (<[event := l ++ [cb]]> h)).
    split; [|split].
    + unfold on. destruct Hs as [-> | [-> ->]]; done.
    + unfold off. by rewrite slot_insert_eq.
    + intros event'. destruct (decide (event' = event)) as [->|Hne].
      * unfold dispatchEvent at 1. rewrite slot_insert_eq, Hfilter. by rewrite Hd.
      * unfold dispatchEvent. by rewrite !slot_insert_ne.
Qed.

Lemma off_removes_callbacks_witness :
  exists h1 h2,
    on "connected" 7 {["connected" := [1; 2]]} = Some h1
    /\ off "connected" (Some 7) h1 = Some h2
    /\ (forall event', dispatchEvent event' h2
                       = dispatchEvent event' {["connected" := [1; 2]]}).
Proof.
  destruct (off_removes_callbacks "connected" {["connected" := [1; 2]]})
    as (_ & _ & _ & H).
  apply (H (or_introl (ex_intro _ [1; 2] eq_refl)) 7 [1; 2] eq_refl).
  intros Hin. apply elem_of_cons in Hin as [?|Hin]; [done|].
  apply list_elem_of_singleton in Hin. done.
Defined.

(** ** Disabling the service *)

Lemma disabled_step (e : ServiceEvent) (ws : WebSocketService.t) :
  not_enabling e = true ->
  WebSocketService.isEnabled ws = false ->
  WebSocketService.socket ws = None ->
  WebSocketService.isEnabled (service_step e ws) = false
  /\ WebSocketService.socket (service_step e ws) = None
  /\ length (WebSocketService.timers (service_step e ws))
     <= length (WebSocketService.timers ws).
Proof.
  intros He Hen Hso.
  destruct ws as [so n en ts]. simpl in Hen, Hso. subst so en.
  destruct e as [|wasClean|k a t|a t|a t|b a t| |ty d]; simpl in *; try done.
  - unfold onclose. simpl. by rewrite andb_false_r.
  - unfold reconnectTimer. simpl. destruct (ts !! k) eqn:Hk; [|done]. simpl.
    repeat split. rewrite length_delete by (by eexists). lia.
  - destruct b; done.
Qed.

(** X14.  [setEnabled(false)] leaves the service disabled and without a
    socket, whatever it was before.  From then on, until
    [setEnabled(true)], and provided no [connect()] called earlier is still
    waiting for its probe, no open or close event, timer, [connect()],
    [disconnect()] or [send] opens a socket or arms a timer: the service
    stays disabled and socketless, the armed timers can only expire, and
    every [send] returns [false].  The proviso is needed: a [connect()]
    that resumes does not test the flag again, so if the probe succeeds it
    installs a socket in the disabled service, and once that socket opens
    [send] transmits. *)
Theorem disabled_service_is_inert (a t : bool) (es : list ServiceEvent)
    (ws : WebSocketService.t) :
  Forall (fun e => not_enabling e = true) es ->
  let ws' := service_run es (setEnabled false a t ws) in
  WebSocketService.isEnabled ws' = false
  /\ WebSocketService.socket ws' = None
  /\ length (WebSocketService.timers ws') <= length (WebSocketService.timers ws)
  /\ (forall type data, send type data ws' = (false, ws'))
  /\ (WebSocketService.isEnabled (connect_resume true false ws') = false
      /\ WebSocketService.socket (connect_resume true false ws')
         = Some (WebSocket.mk CONNECTING [])
      /\ forall type data,
          (send type data (onopen (connect_resume true false ws'))).1 = true).
Proof.
  intros Hes ws'.
  assert (H0 : WebSocketService.isEnabled (setEnabled false a t ws) = false
               /\ WebSocketService.socket (setEnabled false a t ws) = None
               /\ length (WebSocketService.timers (setEnabled false a t ws))
                  <= length (WebSocketService.timers ws)).
  { destruct ws as [[k|] n en ts]; simpl; done. }
  assert (Hrun : WebSocketService.isEnabled ws' = false
                 /\ WebSocketService.socket ws' = None
                 /\ length (WebSocketService.timers ws')
                    <= length (WebSocketService.timers ws)).
  { unfold ws'. clear ws'. revert H0.
    generalize (setEnabled false a t ws) as v.
    induction Hes as [|e es He Hes IH]; intros v Hv; [exact Hv|].
    simpl. apply IH. destruct Hv as (Hen & Hso & Hlen).
    destruct (disabled_step e v He Hen Hso) as (? & ? & ?).
    repeat split; try done. lia. }
  destruct Hrun as (Hen & Hso & Hlen).
  split; [done|]. split; [done|]. split; [done|]. split.
  - intros type data. unfold send. by rewrite Hso.
  - split; [exact Hen|]. split; [reflexivity|]. reflexivity.
Qed.

Lemma disabled_service_is_inert_witness :
  WebSocketService.socket
    (service_run [ev_close false; ev_timer 0 true false; ev_connect true false;
                  ev_send "stop_generation" (conversation_ref "c1")]
       (setEnabled false true false openService)) = None.
Proof.
  refine (proj1 (proj2 (disabled_service_is_inert true false
            [ev_close false; ev_timer 0 true false; ev_connect true false;
             ev_send "stop_generation" (conversation_ref "c1")] openService _))).
  repeat constructor.
Defined.

(** ** The reconnect delay *)

Lemma three_halves_ge_1 : (1 <= 3 # 2)%Q.
Proof. discriminate. Qed.

(** X15.  From the first attempt on, the reconnect delay lies between one
    second and thirty seconds, never shrinks from one attempt to the next,
    and is exactly thirty seconds from the tenth attempt on. *)
Theorem backoff_bounds (n : nat) :
  1 <= n ->
  (1000 <= backoff n)%Q /\ (backoff n <= 30000)%Q
  /\ (backoff n <= backoff (S n))%Q
  /\ (10 <= n -> (backoff n == 30000)%Q).
Proof.
  intros Hn. unfold backoff, reconnectDelay.
  assert (H1 : (1 <= (3 # 2) ^ (Z.of_nat n - 1))%Q).
  { apply Qpower_1_le; [apply three_halves_ge_1 | lia]. }
  assert (Hmono : ((3 # 2) ^ (Z.of_nat n - 1) <= (3 # 2) ^ (Z.of_nat (S n) - 1))%Q).
  { apply Qpower_le_compat_l; [lia | apply three_halves_ge_1]. }
  split; [|split; [|split]].
  - apply Q.min_glb; [|discriminate]. nra.
  - apply Q.le_min_r.
  - apply Q.min_le_compat_r. nra.
  - intros H10. apply Q.min_r.
    assert (H9 : ((3 # 2) ^ 9 <= (3 # 2) ^ (Z.of_nat n - 1))%Q).
    { apply Qpower_le_compat_l; [lia | apply three_halves_ge_1]. }
    assert (H30 : (30 <= (3 # 2) ^ 9)%Q) by (vm_compute; discriminate).
    nra.
Qed.

Lemma backoff_bounds_witness :
  (1000 <= backoff 12)%Q /\ (backoff 12 <= 30000)%Q
  /\ (backoff 12 <= backoff 13)%Q
  /\ (10 <= 12 -> (backoff 12 == 30000)%Q).
Proof. apply (backoff_bounds 12). lia. Defined.

(** ** Frames on an open socket *)

(** X16.  On an OPEN socket a sequence of [send] calls puts exactly their
    envelopes on the wire, in call order, after what was sent before; the
    reconnect counter, the enabled flag and the timers are not touched. *)
Theorem sends_reach_wire_in_order (es : list Envelope.t) (ws : WebSocketService.t)
    (k : WebSocket.t) :
  WebSocketService.socket ws = Some k ->
  WebSocket.readyState k = OPEN ->
  service_run ((fun e => ev_send (Envelope.type e) (Envelope.data e)) <$> es) ws
  = WebSocketService.mk (Some (WebSocket.mk OPEN (WebSocket.sent k ++ es)))
      (WebSocketService.reconnectAttempts ws) (WebSocketService.isEnabled ws)
      (WebSocketService.timers ws).
Proof.
  revert ws k. induction es as [|e es IH]; intros ws k Hk Hopen.
  - simpl. rewrite app_nil_r. destruct ws as [so n en ts], k as [rs se].
    simpl in *. by subst.
  - simpl. rewrite (send_open (Envelope.type e) (Envelope.data e) ws k Hk Hopen).
    simpl. erewrite IH; [|reflexivity|reflexivity]. simpl.
    rewrite <- app_assoc. by destruct e.
Qed.

Lemma sends_reach_wire_in_order_witness :
  service_run
    [ev_send "register_persona" (persona_ref ada);
     ev_send "multi_agent_next_turn" (conversation_ref "c1")] openService
  = WebSocketService.mk
      (Some (WebSocket.mk OPEN
               ([] ++ [Envelope.mk "register_persona" (persona_ref ada);
                       Envelope.mk "multi_agent_next_turn" (conversation_ref "c1")])))
      0 true [].
Proof.
  exact (sends_reach_wire_in_order
           [Envelope.mk "register_persona" (persona_ref ada);
            Envelope.mk "multi_agent_next_turn" (conversation_ref "c1")]
           openService (WebSocket.mk OPEN []) eq_refl eq_refl).
Defined.

(** ** A reconnect timer that fires *)

(** X17.  When an armed reconnect timer fires it is consumed.  It opens a
    new socket, in state CONNECTING with nothing sent, only if the current
    socket is not OPEN, the service is enabled and the backend answers the
    probe; if the socket is OPEN, the service disabled or the probe fails,
    socket, counter and flag stay as they are and no further timer is
    armed. *)
Theorem reconnectTimer_connects_only_when_needed (k : nat) (isAvailable : bool)
    (ws : WebSocketService.t) (d : Q) :
  WebSocketService.timers ws !! k = Some d ->
  let ws' := reconnectTimer k isAvailable false ws in
  WebSocketService.timers ws' = delete k (WebSocketService.timers ws)
  /\ WebSocketService.reconnectAttempts ws' = WebSocketService.reconnectAttempts ws
  /\ WebSocketService.isEnabled ws' = WebSocketService.isEnabled ws
  /\ (isOpen ws = false -> WebSocketService.isEnabled ws = true -> isAvailable = true ->
      WebSocketService.socket ws' = Some (WebSocket.mk CONNECTING []))
  /\ (isOpen ws = true \/ WebSocketService.isEnabled ws = false \/ isAvailable = false ->
      WebSocketService.socket ws' = WebSocketService.socket ws).
Proof.
  intros Hk ws'. unfold ws', reconnectTimer. rewrite Hk.
  destruct ws as [so n en ts]. unfold isOpen, connect. simpl in *.
  destruct so as [[rs se]|]; simpl;
    [destruct (bool_decide (rs = OPEN)) eqn:Hopen|]; simpl;
    destruct en, isAvailable; simpl; repeat split; try done;
    intros [?|[?|?]]; done.
Qed.

Lemma reconnectTimer_connects_only_when_needed_witness :
  WebSocketService.socket (reconnectTimer 0 true false (onclose false droppedService))
  = Some (WebSocket.mk CONNECTING []).
Proof.
  destruct (reconnectTimer_connects_only_when_needed 0 true
              (onclose false droppedService) (backoff 3) eq_refl)
    as (_ & _ & _ & H & _).
  apply H; reflexivity.
Defined.

(** * Further properties of the controls *)

Section ControlsMore.

Variable conversationId : string.
Variable participants : list string.

Lemma issued_app (w w' : World.t) (l : list Envelope.t) :
  World.calls w' = World.calls w ++ l -> issued w w' = l.
Proof.
  intros H. unfold issued. rewrite H, drop_app, drop_all, Nat.sub_diag. done.
Qed.

Lemma issued_same (w w' : World.t) :
  World.calls w' = World.calls w -> issued w w' = [].
Proof. intros H. apply issued_app. by rewrite app_nil_r. Qed.

Lemma render_status (w : World.t) :
  Render.status (render conversationId participants w)
  = statusOf conversationId (World.store w).
Proof. reflexivity. Qed.

Lemma render_flags (w : World.t) (st : Status) :
  statusOf conversationId (World.store w) = st ->
  Render.isGenerating (render conversationId participants w) = bool_decide (st = generating)
  /\ Render.isPaused (render conversationId participants w) = bool_decide (st = paused)
  /\ Render.isStopped (render conversationId participants w) = bool_decide (st = stopped).
Proof. intros <-. done. Qed.

Lemma handleStop_calls r w :
  World.calls (handleStop conversationId r w)
  = World.calls w ++ [Envelope.mk "stop_generation" (conversation_ref conversationId)].
Proof.
  unfold handleStop. rewrite wsSend_calls.
  destruct (Render.isAutoMode r); simpl; [|done].
  by rewrite clearAutoModeInterval_calls.
Qed.

(** X18.  Pressing Stop on a conversation that is not stopped sets its
    status to stopped, switches auto-mode off and issues exactly one
    [stop_generation] for the conversation.  After that every control of
    the page is disabled: no click and no submitted text changes
    anything. *)
Theorem stop_is_terminal_for_controls (w : World.t) :
  statusOf conversationId (World.store w) <> stopped ->
  let w' := ui_step conversationId participants click_stop w in
  statusOf conversationId (World.store w') = stopped
  /\ World.isAutoMode w' = false
  /\ issued w w' = [Envelope.mk "stop_generation" (conversation_ref conversationId)]
  /\ (forall e, page_control e = true -> ui_step conversationId participants e w' = w').
Proof.
  intros Hns w'.
  destruct (render_flags w _ eq_refl) as (_ & _ & HisS).
  rewrite bool_decide_eq_false_2 in HisS by done.
  assert (Hw' : w' = handleStop conversationId (render conversationId participants w) w).
  { unfold w', ui_step. by rewrite HisS. }
  assert (Hst : statusOf conversationId (World.store w') = stopped).
  { rewrite Hw'. unfold handleStop, wsSend.
    cbn [World.store World.set_calls World.set_service].
    destruct (Render.isAutoMode _); cbn [World.store World.set_isAutoMode].
    - rewrite clearAutoModeInterval_store. unfold dispatchStatus.
      cbn [World.store World.set_store]. apply statusOf_setConversationStatus.
    - unfold dispatchStatus. cbn [World.store World.set_store].
      apply statusOf_setConversationStatus. }
  split; [exact Hst|]. split; [|split].
  - rewrite Hw'. unfold handleStop, wsSend.
    cbn [World.isAutoMode World.set_calls World.set_service].
    destruct (Render.isAutoMode (render conversationId participants w)) eqn:Ha;
      [done|].
    exact Ha.
  - apply issued_app. rewrite Hw'. apply handleStop_calls.
  - intros e He. destruct (render_flags w' _ Hst) as (_ & _ & HisS').
    rewrite bool_decide_eq_true_2 in HisS' by done.
    unfold ui_step. destruct e; try done; by rewrite HisS', ?orb_true_r.
Qed.

Lemma registrations_type r :
  Forall (fun x => Envelope.type x <> "multi_agent_next_turn") (registrations r).
Proof.
  unfold registrations. apply Forall_fmap, Forall_forall. intros persona _. done.
Qed.

(** X19.  Turn requests are not duplicated from the page: while the
    conversation is generating, paused or stopped, no button, no submitted
    text, no inbound frame and no transport event makes the component issue
    a [multi_agent_next_turn]. *)
Theorem no_turn_request_unless_idle (e : UiEvent) (w : World.t) :
  from_latest_render e = true ->
  statusOf conversationId (World.store w) <> idle ->
  Forall (fun x => Envelope.type x <> "multi_agent_next_turn") (issued w (ui_step conversationId participants e w)).
Proof.
  intros He Hni.
  set (r := render conversationId participants w).
  assert (Hguard : Render.isGenerating r || Render.isPaused r || Render.isStopped r = true).
  { destruct (render_flags w _ eq_refl) as (Hg & Hp & Hs). fold r in Hg, Hp, Hs.
    rewrite Hg, Hp, Hs.
    destruct (statusOf conversationId (World.store w)); done. }
  assert (Hnil : forall w', World.calls w' = World.calls w ->
            Forall (fun x => Envelope.type x <> "multi_agent_next_turn") (issued w w')).
  { intros w' Hc. by rewrite issued_same. }
  assert (Hstart : forall v, World.calls v = World.calls w ->
            Forall (fun x => Envelope.type x <> "multi_agent_next_turn")
              (issued w (startAutoMode conversationId r v))).
  { intros v Hv. rewrite (issued_app _ _ (registrations r)).
    - apply registrations_type.
    - by rewrite startAutoMode_calls, Hv. }
  unfold ui_step. fold r.
  destruct e as [| | | |message uuid now1 now2|k|h|now f|e']; try done.
  - destruct (Render.isStopped r); [by apply Hnil|].
    destruct (Render.isAutoMode r).
    + apply Hnil. unfold stopAutoMode. by rewrite clearAutoModeInterval_calls.
    + by apply Hstart.
  - assert (Hor : Render.isAutoMode r || Render.isGenerating r
                  || Render.isPaused r || Render.isStopped r = true).
    { destruct (Render.isAutoMode r); [done|]. exact Hguard. }
    rewrite Hor. by apply Hnil.
  - destruct (Render.isStopped r); [by apply Hnil|]. unfold handlePause.
    destruct (Render.isPaused r), (Render.isAutoMode r).
    + by apply Hstart.
    + by apply Hnil.
    + apply Hnil. by rewrite clearAutoModeInterval_calls.
    + by apply Hnil.
  - destruct (Render.isStopped r); [by apply Hnil|].
    rewrite (issued_app _ _ _ (handleStop_calls r w)).
    by repeat constructor.
  - destruct (Render.isStopped r); [by apply Hnil|]. unfold handleSendMessage.
    destruct (is_blank message); [by apply Hnil|].
    destruct (Render.isAutoMode r); by apply Hnil.
  - by apply Hnil.
  - by apply Hnil.
Qed.

(** X20.  Next Turn on an idle conversation, auto-mode off, sets the
    status to generating, clears the current speaker, keeps the recorded
    last message and issues exactly one [multi_agent_next_turn] for the
    conversation; a second press changes nothing.  The result of [send] is
    ignored: without an OPEN socket nothing is transmitted and the
    conversation is left generating all the same. *)
Theorem next_turn_from_idle (w : World.t) :
  statusOf conversationId (World.store w) = idle ->
  World.isAutoMode w = false ->
  let w' := ui_step conversationId participants click_next w in
  ConversationState.conversationStatus (World.store w') !! conversationId
  = Some (TurnStatus.mk generating None (lastMessageIdOf conversationId (World.store w)))
  /\ issued w w'
     = [Envelope.mk "multi_agent_next_turn" (conversation_ref conversationId)]
  /\ (isOpen (World.service w) = false -> World.service w' = World.service w)
  /\ ui_step conversationId participants click_next w' = w'.
Proof.
  intros Hidle Hauto w'.
  destruct (render_flags w _ Hidle) as (Hg & Hp & Hs).
  assert (Hw' : w' = wsSend "multi_agent_next_turn" (conversation_ref conversationId)
                       (dispatchStatus conversationId generating w)).
  { unfold w', ui_step, triggerNextTurn. simpl Render.isAutoMode.
    by rewrite Hauto, Hg, Hp, Hs. }
  assert (Hst : statusOf conversationId (World.store w') = generating).
  { rewrite Hw'. simpl. apply statusOf_setConversationStatus. }
  split; [|split; [|split]].
  - rewrite Hw'. simpl. unfold setConversationStatus. simpl. apply lookup_insert_eq.
  - apply issued_app. by rewrite Hw'.
  - intros Hclosed. rewrite Hw'. simpl. unfold send. unfold isOpen in Hclosed.
    destruct (WebSocketService.socket (World.service w)) as [k|]; [|done].
    by rewrite Hclosed.
  - destruct (render_flags w' _ Hst) as (Hg' & _ & _).
    unfold ui_step. rewrite Hg'. simpl. by rewrite orb_true_r.
Qed.

Lemma addMessage_messagesOf uuid now1 now2 p s ms :
  messagesOf (AddMessage.conversationId p) s = Some ms ->
  messagesOf (AddMessage.conversationId p) (addMessage uuid now1 now2 p s)
  = Some (ms ++ [newMessage uuid now1 p]).
Proof.
  intros Hms. apply messagesOf_Some in Hms as (i & c & Hi & Hc & <-).
  unfold messagesOf, conversationOf.
  rewrite (addMessage_conversations _ _ _ _ _ _ _ Hi Hc).
  rewrite (findIndex_has_id_insert _ _ _ c) by done. rewrite Hi. simpl.
  by rewrite list_lookup_insert_eq by (by eapply lookup_lt_Some).
Qed.

(** X21.  Pause followed by Resume, auto-mode off, amounts to one direct
    reset to idle: the conversation ends idle even if it was generating,
    its recorded last message, its messages and everything else on the page
    are as before, and no command is issued. *)
Theorem pause_then_resume_resets_to_idle (w : World.t) :
  statusOf conversationId (World.store w) <> paused ->
  statusOf conversationId (World.store w) <> stopped ->
  World.isAutoMode w = false ->
  let w1 := ui_step conversationId participants click_pause w in
  let w2 := ui_step conversationId participants click_pause w1 in
  statusOf conversationId (World.store w1) = paused
  /\ w2 = World.set_store
            (setConversationStatus conversationId idle None (World.store w)) w
  /\ statusOf conversationId (World.store w2) = idle
  /\ lastMessageIdOf conversationId (World.store w2)
     = lastMessageIdOf conversationId (World.store w).
Proof.
  intros Hnp Hns Hauto w1 w2.
  destruct (render_flags w _ eq_refl) as (_ & Hp & Hs).
  rewrite bool_decide_eq_false_2 in Hp by done.
  rewrite bool_decide_eq_false_2 in Hs by done.
  assert (Hw1 : w1 = dispatchStatus conversationId paused w).
  { unfold w1, ui_step, handlePause. rewrite Hs, Hp.
    simpl Render.isAutoMode. by rewrite Hauto. }
  assert (Hst1 : statusOf conversationId (World.store w1) = paused).
  { rewrite Hw1. apply statusOf_setConversationStatus. }
  destruct (render_flags w1 _ Hst1) as (_ & Hp1 & Hs1).
  assert (Hw2 : w2 = World.set_store
                       (setConversationStatus conversationId idle None (World.store w)) w).
  { unfold w2, ui_step, handlePause. rewrite Hs1, Hp1.
    simpl Render.isAutoMode. rewrite Hw1. simpl. rewrite Hauto.
    unfold dispatchStatus. simpl. by rewrite setConversationStatus_twice. }
  split; [exact Hst1|]. split; [exact Hw2|]. rewrite Hw2. split.
  - apply statusOf_setConversationStatus.
  - unfold lastMessageIdOf, setConversationStatus. simpl. by rewrite lookup_insert_eq.
Qed.

(** X22.  A submitted text that is blank changes nothing.  Any other text,
    on a conversation that is in the store and not stopped, is appended to
    its messages as a user message carrying the generated id and the clock
    reading, and the turn status becomes idle with that id as last message.
    The text is not handed to the transport: no command is issued, and only
    in auto-mode is a callback armed to request the next turn. *)
Theorem submit_appends_user_message (message uuid : string) (now1 now2 : Z)
    (w : World.t) :
  (is_blank message = true ->
   ui_step conversationId participants (submit message uuid now1 now2) w = w)
  /\ (forall ms,
        is_blank message = false ->
        statusOf conversationId (World.store w) <> stopped ->
        messagesOf conversationId (World.store w) = Some ms ->
        let w' := ui_step conversationId participants (submit message uuid now1 now2) w in
        messagesOf conversationId (World.store w')
        = Some (ms ++ [Message.mk uuid conversationId "user" user message now1 None None])
        /\ ConversationState.conversationStatus (World.store w') !! conversationId
           = Some (TurnStatus.mk idle None (Some uuid))
        /\ World.calls w' = World.calls w
        /\ World.service w' = World.service w
        /\ World.timeouts w'
           = World.timeouts w
             ++ (if World.isAutoMode w
                 then [after_send (render conversationId participants w)] else [])).
Proof.
  split.
  - intros Hb. unfold ui_step, handleSendMessage. rewrite Hb.
    by destruct (Render.isStopped _).
  - intros ms Hb Hns Hms w'.
    destruct (render_flags w _ eq_refl) as (_ & _ & Hs).
    rewrite bool_decide_eq_false_2 in Hs by done.
    set (p := AddMessage.mk conversationId "user" user message None None).
    set (s1 := addMessage uuid now1 now2 p (World.store w)).
    assert (Hstore : World.store w' = setConversationStatus conversationId idle None s1).
    { unfold w', ui_step, handleSendMessage. rewrite Hs, Hb.
      by destruct (Render.isAutoMode _). }
    assert (Hi : is_Some (findIndex (has_id conversationId)
                            (ConversationState.conversations (World.store w)))).
    { apply messagesOf_Some in Hms as (i & c & Hi & _). by eexists. }
    split; [|split; [|split; [|split]]].
    + rewrite Hstore.
      change (messagesOf conversationId (setConversationStatus conversationId idle None s1))
        with (messagesOf conversationId s1).
      exact (addMessage_messagesOf uuid now1 now2 p (World.store w) ms Hms).
    + rewrite Hstore. unfold setConversationStatus. simpl. rewrite lookup_insert_eq.
      do 2 f_equal. unfold s1, addMessage. destruct Hi as [i Hi].
      cbn [AddMessage.conversationId p]. rewrite Hi. simpl.
      by rewrite lookup_insert_eq.
    + unfold w', ui_step, handleSendMessage. rewrite Hs, Hb.
      by destruct (Render.isAutoMode _).
    + unfold w', ui_step, handleSendMessage. rewrite Hs, Hb.
      by destruct (Render.isAutoMode _).
    + unfold w', ui_step, handleSendMessage. rewrite Hs, Hb.
      simpl Render.isAutoMode. destruct (World.isAutoMode w); simpl; [done|].
      by rewrite app_nil_r.
Qed.

Lemma registerParticipant_fold_isAutoMode r (l : list string) v :
  World.isAutoMode (foldl (registerParticipant r) v l) = World.isAutoMode v.
Proof.
  revert v. induction l as [|pid l IH]; intros v; simpl; [done|].
  rewrite IH. unfold registerParticipant. by destruct (findPersona _ _).
Qed.

(** X23.  Starting auto-mode on a paused conversation resets it to idle,
    switches auto-mode on and arms the start callback, but that callback,
    and the interval it sets up, belong to the render in which the
    conversation was paused: whenever they run, they issue no command and
    leave the store as it is.  Auto-mode started from a pause therefore
    never requests a turn by itself. *)
Theorem auto_mode_from_pause_never_requests (w : World.t) :
  statusOf conversationId (World.store w) = paused ->
  World.isAutoMode w = false ->
  let w1 := ui_step conversationId participants click_auto w in
  exists r,
    statusOf conversationId (World.store w1) = idle
    /\ World.isAutoMode w1 = true
    /\ World.timeouts w1 = World.timeouts w ++ [after_start r]
    /\ (forall v, World.store (autoStart conversationId r v) = World.store v
                  /\ World.calls (autoStart conversationId r v) = World.calls v
                  /\ World.service (autoStart conversationId r v) = World.service v
                  /\ List.last (World.intervals (autoStart conversationId r v)) (0, r)
                     = (World.nextHandle v, r))
    /\ (forall v, autoTick conversationId r v = v).
Proof.
  intros Hp Hauto w1.
  set (r := render conversationId participants w).
  destruct (render_flags w _ Hp) as (Hg & HisP & HisS). fold r in Hg, HisP, HisS.
  assert (Hr : Render.status r = paused) by exact Hp.
  assert (Hw1 : w1 = startAutoMode conversationId r w).
  { unfold w1, ui_step. fold r. rewrite HisS. simpl Render.isAutoMode.
    by rewrite Hauto. }
  exists r. split; [|split; [|split; [|split]]].
  - rewrite Hw1, startAutoMode_store, HisP. simpl. apply resetConversation_status.
  - rewrite Hw1. unfold startAutoMode.
    cbn [World.isAutoMode World.set_timeouts].
    by rewrite registerParticipant_fold_isAutoMode.
  - rewrite Hw1. unfold startAutoMode. cbn [World.timeouts World.set_timeouts].
    rewrite (proj2 (proj2 (registerParticipant_fold r _ _))). simpl.
    rewrite HisP. simpl. by rewrite resetConversation_timeouts.
  - intros v. unfold autoStart, triggerNextTurn. rewrite Hg, HisP. simpl.
    repeat split. by rewrite last_last.
  - intros v. unfold autoTick. by rewrite Hr.
Qed.

End ControlsMore.

Lemma stop_is_terminal_for_controls_witness :
  statusOf "c1" (World.store (ui_step "c1" ["p1"; "p9"] click_stop world2)) = stopped.
Proof.
  refine (proj1 (stop_is_terminal_for_controls "c1" ["p1"; "p9"] world2 _)).
  vm_compute. discriminate.
Defined.

Lemma no_turn_request_unless_idle_witness :
  Forall (fun x => Envelope.type x <> "multi_agent_next_turn")
    (issued world2 (ui_step "c1" ["p1"; "p9"] click_next world2)).
Proof.
  apply (no_turn_request_unless_idle "c1" ["p1"; "p9"] click_next world2 eq_refl).
  vm_compute. discriminate.
Defined.

Lemma next_turn_from_idle_witness :
  issued world1 (ui_step "c1" ["p1"; "p9"] click_next world1)
  = [Envelope.mk "multi_agent_next_turn" (conversation_ref "c1")].
Proof.
  exact (proj1 (proj2 (next_turn_from_idle "c1" ["p1"; "p9"] world1 eq_refl eq_refl))).
Defined.

Lemma pause_then_resume_resets_to_idle_witness :
  statusOf "c1"
    (World.store (ui_run "c1" ["p1"; "p9"] [click_pause; click_pause] world2)) = idle
  /\ lastMessageIdOf "c1"
       (World.store (ui_run "c1" ["p1"; "p9"] [click_pause; click_pause] world2))
     = Some "m1".
Proof.
  assert (H1 : statusOf "c1" (World.store world2) <> paused) by (vm_compute; discriminate).
  assert (H2 : statusOf "c1" (World.store world2) <> stopped) by (vm_compute; discriminate).
  destruct (pause_then_resume_resets_to_idle "c1" ["p1"; "p9"] world2 H1 H2 eq_refl)
    as (_ & _ & Hidle & Hlast).
  split; [exact Hidle | exact Hlast].
Defined.

Lemma submit_appends_user_message_witness :
  ui_step "c1" ["p1"; "p9"] (submit "  " "m9" 70 71) world1 = world1
  /\ ui_step "c1" ["p1"; "p9"] (submit wideBlank "m9" 70 71) world1 = world1
  /\ messagesOf "c1" (World.store (ui_step "c1" ["p1"; "p9"] (submit "hi" "m9" 70 71) world1))
     = Some ([] ++ [Message.mk "m9" "c1" "user" user "hi" 70 None None]).
Proof.
  destruct (submit_appends_user_message "c1" ["p1"; "p9"] "  " "m9" 70 71 world1)
    as [Hblank _].
  destruct (submit_appends_user_message "c1" ["p1"; "p9"] wideBlank "m9" 70 71 world1)
    as [Hwide _].
  destruct (submit_appends_user_message "c1" ["p1"; "p9"] "hi" "m9" 70 71 world1)
    as [_ Hsend].
  split; [by apply Hblank|]. split; [by apply Hwide|].
  refine (proj1 (Hsend [] eq_refl _ eq_refl)). vm_compute. discriminate.
Defined.

Lemma auto_mode_from_pause_never_requests_witness :
  exists r,
    statusOf "c1" (World.store (ui_step "c1" ["p1"; "p9"] click_auto world3)) = idle
    /\ World.isAutoMode (ui_step "c1" ["p1"; "p9"] click_auto world3) = true
    /\ World.timeouts (ui_step "c1" ["p1"; "p9"] click_auto world3) = [] ++ [after_start r]
    /\ (forall v, World.store (autoStart "c1" r v) = World.store v
                  /\ World.calls (autoStart "c1" r v) = World.calls v
                  /\ World.service (autoStart "c1" r v) = World.service v
                  /\ List.last (World.intervals (autoStart "c1" r v)) (0, r)
                     = (World.nextHandle v, r))
    /\ (forall v, autoTick "c1" r v = v).
Proof.
  exact (auto_mode_from_pause_never_requests "c1" ["p1"; "p9"] world3 eq_refl eq_refl).
Defined.

(** * Personas: the slice and the registering middleware *)

Lemma find_persona_index (i : string) (l : list Persona.t) :
  List.find (persona_has_id i) l = (j ← findIndex (persona_has_id i) l; l !! j).
Proof. symmetry. apply findIndex_lookup_find. Qed.

(** X24.  Dispatching [addPersona] through the middleware puts the new
    persona, carrying the generated id and the two clock readings, at the
    end of the persona list, leaves the personas already there untouched,
    and issues exactly one [register_persona] command, for that persona;
    with an OPEN socket this is the one frame added to the wire. *)
Theorem addPersona_registers_new_persona (uuid : string) (now1 now2 : Z)
    (p : AddPersona.t) (s : PersonaState.t) (ws : WebSocketService.t) :
  let persona :=
    Persona.mk uuid (AddPersona.name p) (AddPersona.avatar p) (AddPersona.systemPrompt p)
      (AddPersona.modelId p) (AddPersona.conversationStyle p) now1 now2 in
  let '(s', issued, ws') := personaMiddleware (add_persona uuid now1 now2 p) s ws in
  PersonaState.personas s' = PersonaState.personas s ++ [persona]
  /\ PersonaState.activePersonaId s' = PersonaState.activePersonaId s
  /\ issued = [Envelope.mk "register_persona" (persona_ref persona)]
  /\ ws' = (send "register_persona" (persona_ref persona) ws).2
  /\ (forall k, WebSocketService.socket ws = Some k -> WebSocket.readyState k = OPEN ->
        WebSocketService.socket ws'
        = Some (WebSocket.mk OPEN
                  (WebSocket.sent k ++ [Envelope.mk "register_persona" (persona_ref persona)]))).
Proof.
  unfold personaMiddleware, personaToRegister, personaReducer, addPersona. simpl.
  rewrite last_snoc. repeat split.
  intros k Hk Hopen. by rewrite (send_open _ _ ws k Hk Hopen).
Qed.

Lemma addPersona_registers_new_persona_witness :
  WebSocketService.socket
    (personaMiddleware (add_persona "p2" 5 5 (AddPersona.mk "Bob" "" "You are Bob." "m1" ""))
       (PersonaState.mk [ada] None false None) openService).2
  = Some (WebSocket.mk OPEN
            ([] ++ [Envelope.mk "register_persona"
                      (persona_ref (Persona.mk "p2" "Bob" "" "You are Bob." "m1" "" 5 5))])).
Proof.
  pose proof (addPersona_registers_new_persona "p2" 5 5
                (AddPersona.mk "Bob" "" "You are Bob." "m1" "")
                (PersonaState.mk [ada] None false None) openService) as H.
  simpl in H. destruct H as (_ & _ & _ & _ & H).
  exact (H (WebSocket.mk OPEN []) eq_refl eq_refl).
Defined.

(** X25.  Dispatching [updatePersona] through the middleware: when no
    persona carries the id, the state is unchanged and nothing is issued.
    Otherwise the first persona with that id is replaced, in place, by its
    merge with the payload, stamped with the clock reading as [updated]
    whatever the payload says; the list keeps its length and ids; and
    exactly one [register_persona] command is issued, carrying the persona
    as updated. *)
Theorem updatePersona_registers_update (now : Z) (p : UpdatePersona.t)
    (s : PersonaState.t) (ws : WebSocketService.t) :
  let '(s', issued, ws') := personaMiddleware (update_persona now p) s ws in
  ((forall q, q ∈ PersonaState.personas s -> Persona.id q <> UpdatePersona.id p) ->
   s' = s /\ issued = [] /\ ws' = ws)
  /\ (forall q, List.find (persona_has_id (UpdatePersona.id p)) (PersonaState.personas s)
                = Some q ->
        exists q',
          issued = [Envelope.mk "register_persona" (persona_ref q')]
          /\ List.find (persona_has_id (UpdatePersona.id p)) (PersonaState.personas s')
             = Some q'
          /\ Persona.id q' = Persona.id q
          /\ Persona.updated q' = now
          /\ Persona.name q' = default (Persona.name q) (UpdatePersona.name p)
          /\ Persona.systemPrompt q'
             = default (Persona.systemPrompt q) (UpdatePersona.systemPrompt p)
          /\ Persona.modelId q' = default (Persona.modelId q) (UpdatePersona.modelId p)
          /\ Persona.id <$> PersonaState.personas s' = Persona.id <$> PersonaState.personas s
          /\ ws' = (send "register_persona" (persona_ref q') ws).2).
Proof.
  unfold personaMiddleware, personaToRegister, personaReducer, updatePersona.
  destruct (findIndex (persona_has_id (UpdatePersona.id p)) (PersonaState.personas s))
    as [i|] eqn:Hi.
  - destruct (findIndex_Some _ _ _ Hi) as (q0 & _ & Hq0 & Hp0 & _).
    unfold update_at. rewrite Hq0. cbn [PersonaState.personas].
    set (q' := Persona.mk (UpdatePersona.id p) _ _ _ _ _ _ now).
    assert (Hsame : persona_has_id (UpdatePersona.id p) q'
                    = persona_has_id (UpdatePersona.id p) q0).
    { rewrite Hp0. unfold persona_has_id. simpl. by apply string_eqb_true. }
    assert (Hfind : List.find (persona_has_id (UpdatePersona.id p))
                      (<[i := q']> (PersonaState.personas s)) = Some q').
    { rewrite find_persona_index.
      rewrite (findIndex_ext _ (persona_has_id (UpdatePersona.id p))
                 _ (PersonaState.personas s))
        by (by apply map_insert_same with (x := q0)).
      rewrite Hi. simpl. apply list_lookup_insert_eq. by eapply lookup_lt_Some. }
    rewrite Hfind. split.
    + intros Hnone. exfalso. apply (Hnone q0); [by eapply list_elem_of_lookup_2|].
      by apply string_eqb_true.
    + intros q Hq. rewrite find_persona_index, Hi in Hq. simpl in Hq.
      assert (q = q0) by congruence. subst q0.
      exists q'. repeat split.
      * exact Hfind.
      * simpl. symmetry. by apply string_eqb_true.
      * apply map_insert_same with (x := q); [done|]. simpl.
        symmetry. by apply string_eqb_true.
  - rewrite find_persona_index, Hi. simpl. split; [done|].
    intros q Hq. done.
Qed.

Lemma updatePersona_registers_update_witness :
  (personaMiddleware
     (update_persona 9 (UpdatePersona.mk "zz" (Some "Zed") None None None None None None))
     (PersonaState.mk [ada] None false None) openService)
  = (PersonaState.mk [ada] None false None, [], openService).
Proof.
  pose proof (updatePersona_registers_update 9
                (UpdatePersona.mk "zz" (Some "Zed") None None None None None None)
                (PersonaState.mk [ada] None false None) openService) as H.
  destruct (personaMiddleware _ _ _) as [[s' issued] ws'].
  destruct H as [H _].
  destruct H as (-> & -> & ->); [|reflexivity].
  intros q Hq. apply list_elem_of_singleton in Hq as ->. done.
Defined.

(** X26.  [deletePersona] removes every persona that carries the id,
    keeps the others in order, and clears the active persona exactly when
    it was the deleted one.  The middleware issues no command for it: the
    backend is not told that the persona is gone.  A render that sees the
    resulting persona list no longer resolves the id, so auto-mode started
    from it registers no persona with that id. *)
Theorem deletePersona_is_local (personaId : string) (s : PersonaState.t)
    (ws : WebSocketService.t) :
  let '(s', issued, ws') := personaMiddleware (delete_persona personaId) s ws in
  PersonaState.personas s'
  = filter (fun q => Persona.id q <> personaId) (PersonaState.personas s)
  /\ PersonaState.activePersonaId s' <> Some personaId
  /\ (PersonaState.activePersonaId s <> Some personaId ->
      PersonaState.activePersonaId s' = PersonaState.activePersonaId s)
  /\ issued = [] /\ ws' = ws
  /\ findPersona (PersonaState.personas s') personaId = None
  /\ (forall r e persona,
        Render.personas r = PersonaState.personas s' ->
        e ∈ registrations r -> Envelope.data e = persona_ref persona ->
        Persona.id persona <> personaId).
Proof.
  unfold personaMiddleware, personaToRegister, personaReducer, deletePersona. simpl.
  assert (Hgone : forall q,
            q ∈ filter (fun q => Persona.id q <> personaId) (PersonaState.personas s) ->
            Persona.id q <> personaId).
  { intros q Hq. by apply list_elem_of_filter in Hq as [Hq _]. }
  split; [done|]. split; [by case_decide|]. split.
  { intros Hne. by rewrite decide_False. }
  do 2 (split; [done|]). split.
  - unfold findPersona. rewrite <- findIndex_lookup_find.
    assert (Hf : findIndex (fun q => String.eqb (Persona.id q) personaId)
                   (filter (fun q => Persona.id q <> personaId) (PersonaState.personas s))
                 = None).
    { apply findIndex_None. intros q Hq. apply string_eqb_false. by apply Hgone. }
    by rewrite Hf.
  - intros r e persona Hr He Hd. unfold registrations in He.
    apply list_elem_of_fmap in He as (q & -> & Hq).
    apply list_elem_of_omap in Hq as (pid & _ & Hfind).
    simpl in Hd. injection Hd as <-.
    unfold findPersona in Hfind. apply find_some in Hfind as [Hin _].
    rewrite Hr in Hin. apply Hgone. by apply list_elem_of_In.
Qed.

(** * Further properties of the store: [updateConversation] and completions *)

(** X27.  [updateConversation] on an id that no conversation carries
    returns the store unchanged.  Otherwise it rewrites the first
    conversation with that id in place: the fields present in the payload
    replace the stored ones, the others are kept, and [updated] is the clock
    reading whatever the payload holds; the list keeps its ids and order,
    and the turn-status map and the active id are untouched. *)
Theorem updateConversation_merges_in_place (now : Z) (p : UpdateConversation.t)
    (s : ConversationState.t) :
  ((forall c, c ∈ ConversationState.conversations s ->
              Conversation.id c <> UpdateConversation.id p) ->
   updateConversation now p s = s)
  /\ (forall c,
        conversationOf (UpdateConversation.id p) s = Some c ->
        exists c',
          conversationOf (UpdateConversation.id p) (updateConversation now p s) = Some c'
          /\ Conversation.id c' = Conversation.id c
          /\ Conversation.updated c' = now
          /\ Conversation.title c'
             = default (Conversation.title c) (UpdateConversation.title p)
          /\ Conversation.participants c'
             = default (Conversation.participants c) (UpdateConversation.participants p)
          /\ Conversation.messages c'
             = default (Conversation.messages c) (UpdateConversation.messages p)
          /\ Conversation.id <$> ConversationState.conversations (updateConversation now p s)
             = Conversation.id <$> ConversationState.conversations s
          /\ ConversationState.conversationStatus (updateConversation now p s)
             = ConversationState.conversationStatus s
          /\ ConversationState.activeConversationId (updateConversation now p s)
             = ConversationState.activeConversationId s).
Proof.
  split.
  - intros Hnone. unfold updateConversation. by rewrite (conversationOf_None _ _ Hnone).
  - intros c Hc. apply conversationOf_Some in Hc as (i & Hi & Hc).
    pose proof (findIndex_id _ _ _ _ Hi Hc) as Hid.
    set (c' := Conversation.mk (UpdateConversation.id p)
                 (default (Conversation.title c) (UpdateConversation.title p))
                 (default (Conversation.created c) (UpdateConversation.created p))
                 now
                 (default (Conversation.participants c) (UpdateConversation.participants p))
                 (default (Conversation.messages c) (UpdateConversation.messages p))
                 (default (Conversation.branches c) (UpdateConversation.branches p))
                 (default (Conversation.parentId c) (UpdateConversation.parentId p))
                 (default (Conversation.isActive c) (UpdateConversation.isActive p))).
    assert (Hconv : ConversationState.conversations (updateConversation now p s)
                    = <[i := c']> (ConversationState.conversations s)).
    { unfold updateConversation. rewrite Hi. simpl. unfold update_at. by rewrite Hc. }
    exists c'. split; [|repeat split].
    + unfold conversationOf. rewrite Hconv.
      rewrite (findIndex_has_id_insert _ _ _ c) by done. rewrite Hi. simpl.
      apply list_lookup_insert_eq. by eapply lookup_lt_Some.
    + done.
    + rewrite Hconv. by apply map_insert_same with (x := c).
    + unfold updateConversation. by rewrite Hi.
    + unfold updateConversation. by rewrite Hi.
Qed.

Lemma updateMessage_status_complete now p s prev :
  messageOf (UpdateMessage.conversationId p) (UpdateMessage.id p) s = Some prev ->
  isCompleteMessage (Message.content prev) (UpdateMessage.content p) = true ->
  marksFinished p = true ->
  ConversationState.conversationStatus (updateMessage now p s)
  = <[UpdateMessage.conversationId p :=
        TurnStatus.mk idle None (Some (UpdateMessage.id p))]>
      (ConversationState.conversationStatus s).
Proof.
  intros Hprev Hc Hf.
  apply messageOf_Some in Hprev as (ci & c & mi & Hci & Hcv & Hmi & Hm).
  unfold updateMessage. by rewrite Hci, Hcv, Hmi, Hm, Hc, Hf.
Qed.

(** X28.  The completion of a turn.  A [message_complete] that names its
    conversation and a stored message still holding the placeholder,
    brings a content that is neither empty nor the placeholder, and carries
    metadata with [isGenerating] false, leaves the conversation idle with
    that message as last message, and the message with the frame's content
    and metadata; its sender and timestamp are kept. *)
Theorem complete_finishes_turn (now : Z) (m : WireMessage.t) (cid : string)
    (s : ConversationState.t) (prev : Message.t) (md : Metadata.t) :
  WireMessage.conversationId m = Some cid -> cid <> "" ->
  messageOf cid (WireMessage.id m) s = Some prev ->
  Message.content prev = placeholder ->
  WireMessage.content m <> "" -> WireMessage.content m <> placeholder ->
  WireMessage.metadata m = Some md -> Metadata.isGenerating md = Some false ->
  let s' := handleMessageComplete now (Some m) s in
  statusOf cid s' = idle
  /\ lastMessageIdOf cid s' = Some (WireMessage.id m)
  /\ exists m',
      messageOf cid (WireMessage.id m) s' = Some m'
      /\ Message.content m' = WireMessage.content m
      /\ Message.metadata m' = Some md
      /\ Message.senderId m' = Message.senderId prev
      /\ Message.timestamp m' = Message.timestamp prev.
Proof.
  intros Hcid Hne Hprev Hph Hc1 Hc2 Hmd Hgen s'.
  assert (Hp : UpdateMessage.conversationId (completePayload m) = cid).
  { unfold completePayload. simpl. rewrite Hcid. simpl.
    by rewrite (proj2 (string_eqb_false cid "") Hne). }
  assert (Hprev' : messageOf (UpdateMessage.conversationId (completePayload m))
                     (UpdateMessage.id (completePayload m)) s = Some prev)
    by (by rewrite Hp).
  assert (Hic : isCompleteMessage (Message.content prev)
                  (UpdateMessage.content (completePayload m)) = true).
  { apply isCompleteMessage_spec. exists (WireMessage.content m).
    repeat split; [done|by rewrite Hph|by left]. }
  assert (Hmf : marksFinished (completePayload m) = true).
  { apply marksFinished_spec. exists md. simpl. by rewrite Hmd. }
  assert (Hs : ConversationState.conversationStatus s'
               = <[cid := TurnStatus.mk idle None (Some (WireMessage.id m))]>
                   (ConversationState.conversationStatus s)).
  { pose proof (updateMessage_status_complete now (completePayload m) s prev
                  Hprev' Hic Hmf) as Hstat.
    rewrite Hp in Hstat. exact Hstat. }
  split; [|split].
  - unfold statusOf. by rewrite Hs, lookup_insert_eq.
  - unfold lastMessageIdOf. by rewrite Hs, lookup_insert_eq.
  - exists (merge prev (completePayload m)). split.
    + pose proof (updateMessage_messageOf now (completePayload m) s prev Hprev') as H.
      by rewrite Hp in H.
    + simpl. by rewrite Hmd.
Qed.

(** X29.  Two edge cases of [message_complete].  A message without a
    conversation id, or with an empty one, is looked up in the conversation
    whose id is the message's own id, so it changes nothing unless such a
    conversation exists.  A message without metadata never moves the turn
    status, and on a stored message it erases the metadata that message
    had. *)
Theorem complete_edge_cases (now : Z) (m : WireMessage.t) (s : ConversationState.t) :
  ((WireMessage.conversationId m = None \/ WireMessage.conversationId m = Some "") ->
   (forall c, c ∈ ConversationState.conversations s ->
              Conversation.id c <> WireMessage.id m) ->
   handleMessageComplete now (Some m) s = s)
  /\ (WireMessage.metadata m = None ->
      ConversationState.conversationStatus (handleMessageComplete now (Some m) s)
      = ConversationState.conversationStatus s
      /\ forall cid prev,
          WireMessage.conversationId m = Some cid -> cid <> "" ->
          messageOf cid (WireMessage.id m) s = Some prev ->
          exists m',
            messageOf cid (WireMessage.id m) (handleMessageComplete now (Some m) s)
              = Some m'
            /\ Message.metadata m' = None
            /\ Message.content m' = WireMessage.content m).
Proof.
  split.
  - intros Hcid Hnone. simpl. unfold updateMessage.
    assert (Hp : UpdateMessage.conversationId (completePayload m) = WireMessage.id m).
    { unfold completePayload. simpl. by destruct Hcid as [-> | ->]. }
    rewrite Hp. by rewrite (conversationOf_None _ _ Hnone).
  - intros Hmd. split.
    + simpl. apply updateMessage_not_finished.
      unfold marksFinished, completePayload. simpl. by rewrite Hmd.
    + intros cid prev Hcid Hne Hprev.
      assert (Hp : UpdateMessage.conversationId (completePayload m) = cid).
      { unfold completePayload. simpl. rewrite Hcid. simpl.
        by rewrite (proj2 (string_eqb_false cid "") Hne). }
      exists (merge prev (completePayload m)). split.
      * assert (Hprev' : messageOf (UpdateMessage.conversationId (completePayload m))
                           (UpdateMessage.id (completePayload m)) s = Some prev)
          by (by rewrite Hp).
        pose proof (updateMessage_messageOf now (completePayload m) s prev Hprev') as H.
        by rewrite Hp in H.
      * simpl. by rewrite Hmd.
Qed.

Lemma setConversationStatus_overwrites_witness :
  ConversationState.conversationStatus
    (setConversationStatus "c1" paused None store2) !! "zz"
  = ConversationState.conversationStatus store2 !! "zz".
Proof.
  destruct (setConversationStatus_overwrites "c1" paused idle None None store2)
    as (_ & _ & H & _).
  by apply H.
Defined.

Lemma on_appends_callback_witness :
  (on "toString" 3 ∅ = None /\ dispatchEvent "toString" ∅ = None)
  /\ exists h' l,
      on "connected" 3 {["connected" := [4]]} = Some h'
      /\ dispatchEvent "connected" {["connected" := [4]]} = Some l
      /\ dispatchEvent "connected" h' = Some (l ++ [3])
      /\ (forall event', event' <> "connected" ->
            dispatchEvent event' h' = dispatchEvent event' {["connected" := [4]]}).
Proof.
  split.
  - apply (proj1 (on_appends_callback "toString" 3 ∅)); [reflexivity|].
    vm_compute. repeat first [apply list_elem_of_here | apply list_elem_of_further].
  - apply (proj2 (on_appends_callback "connected" 3 {["connected" := [4]]})).
    left. by exists [4].
Defined.

Lemma deletePersona_is_local_witness :
  PersonaState.activePersonaId
    (personaMiddleware (delete_persona "zz")
       (PersonaState.mk [ada] (Some "p1") false None) openService).1.1
  = Some "p1".
Proof.
  pose proof (deletePersona_is_local "zz"
                (PersonaState.mk [ada] (Some "p1") false None) openService) as H.
  simpl in H. destruct H as (_ & _ & H & _).
  by apply H.
Defined.

Lemma updateConversation_merges_in_place_witness :
  exists c',
    conversationOf "c1"
      (updateConversation 90
         (UpdateConversation.mk "c1" (Some "Renamed") None (Some 5%Z) None None None None None)
         store2) = Some c'
    /\ Conversation.id c' = "c1"
    /\ Conversation.updated c' = 90%Z
    /\ Conversation.title c' = "Renamed"
    /\ Conversation.participants c' = ["p1"; "p9"]
    /\ Conversation.messages c' = [newMessage "m1" 20 hello; newMessage "m2" 30 pending].
Proof.
  destruct (proj2 (updateConversation_merges_in_place 90
              (UpdateConversation.mk "c1" (Some "Renamed") None (Some 5%Z) None None
                 None None None) store2)
              (Conversation.mk "c1" "Demo" 10 31 ["p1"; "p9"]
                 [newMessage "m1" 20 hello; newMessage "m2" 30 pending] None None true)
              eq_refl)
    as (c' & H1 & H2 & H3 & H4 & H5 & H6 & _).
  exists c'. repeat split; assumption.
Defined.

Lemma complete_finishes_turn_witness :
  statusOf "c1"
    (handleMessageComplete 40
       (Some (WireMessage.mk "m2" (Some "c1") "Hi there" (Some finished))) store2) = idle
  /\ lastMessageIdOf "c1"
       (handleMessageComplete 40
          (Some (WireMessage.mk "m2" (Some "c1") "Hi there" (Some finished))) store2)
     = Some "m2".
Proof.
  destruct (complete_finishes_turn 40
              (WireMessage.mk "m2" (Some "c1") "Hi there" (Some finished)) "c1" store2
              (newMessage "m2" 30 pending) finished)
    as (H1 & H2 & _); try reflexivity; try discriminate.
  split; [exact H1 | exact H2].
Defined.

Lemma complete_edge_cases_witness :
  handleMessageComplete 40 (Some (WireMessage.mk "m2" None "Hi there" (Some finished))) store2
  = store2.
Proof.
  apply (proj1 (complete_edge_cases 40
                  (WireMessage.mk "m2" None "Hi there" (Some finished)) store2)).
  - by left.
  - intros c Hc. vm_compute in Hc. apply list_elem_of_singleton in Hc as ->. done.
Defined.
